(** * MyShop: the preference store, the catalog loader, the filter and the
    view selector of [AppProvider], embedded in Rocq.

    The development follows the provider of the application
    (the [AppProvider] component and the [App] component that reads it):

    - [JSON] is the part of the platform the provider relies on:
      [JSON.parse] on an arbitrary text and [JSON.stringify] on an array of
      product identifiers;
    - [Shop] is the provider itself: its state cells, the functions it
      exports through the context ([filterProducts], [toggleLike],
      [toggleDislike], [navigateTo]), its three effects (the catalog fetch
      and the two persistence effects) and the lazy initialisers that read
      [localStorage];
    - [Views] is the components that read the context ([Header],
      [HomeView], [ProductCard], [ProductsView], [FavoritesView],
      [ProductDetailView]) and the calls they make on it;
    - the last parts state and prove the properties of the store and of
      its consumers.

    Product identifiers are the integers of the catalog; they are modelled
    by [Z], on which JavaScript numbers agree for every safe integer. *)

From Stdlib Require Import ZArith QArith Ascii String Decimal DecimalPos DecimalN.
From stdpp Require Import base option list strings gmap.

Local Open Scope Z_scope.
#[local] Set Warnings "-clear-no-such-hyp".

(* ===================================================================== *)
(** * The JSON functions of the platform *)
(* ===================================================================== *)

Module JSON.

Local Open Scope char_scope.

(** A text is handled as the list of its characters. *)
Abbreviation text := (list ascii).

(** The values [JSON.parse] returns.  A number written as a plain integer
    is kept as that integer; a number written with a fraction or an
    exponent is kept as the parts of its lexeme; a string is kept as the
    characters between its quotes, escapes not decoded. *)
#[warnings="-register-all"] Inductive json : Type :=
| JNull
| JBool (b : bool)
| JInt (z : Z)
| JReal (negative : bool) (integer fraction : uint) (exponent : option int)
| JString (s : text)
| JArray (elements : list json)
| JObject (members : list (text * json)).

(** ** Lexical layer

    The quotation mark is written by its code, ["034"]. *)

Definition isWhitespace (c : ascii) : bool :=
  match c with
  | " " | "009" | "010" | "013" => true
  | _ => false
  end.

Fixpoint skipWhitespace (cs : text) : text :=
  match cs with
  | c :: r => if isWhitespace c then skipWhitespace r else cs
  | [] => []
  end.

Definition digitOf (c : ascii) : option (uint -> uint) :=
  match c with
  | "0" => Some D0 | "1" => Some D1 | "2" => Some D2 | "3" => Some D3
  | "4" => Some D4 | "5" => Some D5 | "6" => Some D6 | "7" => Some D7
  | "8" => Some D8 | "9" => Some D9
  | _ => None
  end.

Definition isDigit (c : ascii) : bool :=
  match digitOf c with Some _ => true | None => false end.

Definition isHexDigit (c : ascii) : bool :=
  isDigit c ||
  match c with
  | "a" | "b" | "c" | "d" | "e" | "f"
  | "A" | "B" | "C" | "D" | "E" | "F" => true
  | _ => false
  end.

(** The longest run of decimal digits at the head of a text. *)
Fixpoint scanDigits (cs : text) : uint * text :=
  match cs with
  | c :: r =>
      match digitOf c with
      | Some d => let '(u, r') := scanDigits r in (d u, r')
      | None => (Nil, cs)
      end
  | [] => (Nil, [])
  end.

(** The integer part of a JSON number: a lone [0], or a run of digits
    that does not start with [0]. *)
Definition integerPartOk (u : uint) : bool :=
  match u with
  | Nil => false
  | D0 Nil => true
  | D0 _ => false
  | _ => true
  end.

Definition scanFraction (cs : text) : option (uint * text) :=
  match cs with
  | c :: r =>
      if c =? "." then
        match scanDigits r with
        | (Nil, _) => None
        | (f, r') => Some (f, r')
        end
      else Some (Nil, cs)
  | [] => Some (Nil, [])
  end.

Definition scanExponentDigits (sign : uint -> int) (cs : text)
  : option (option int * text) :=
  match scanDigits cs with
  | (Nil, _) => None
  | (e, r) => Some (Some (sign e), r)
  end.

Definition scanExponent (cs : text) : option (option int * text) :=
  match cs with
  | c :: r =>
      if (c =? "e") || (c =? "E") then
        match r with
        | c' :: r' =>
            if c' =? "+" then scanExponentDigits Pos r'
            else if c' =? "-" then scanExponentDigits Neg r'
            else scanExponentDigits Pos r
        | [] => None
        end
      else Some (None, cs)
  | [] => Some (None, [])
  end.

Definition scanSign (cs : text) : bool * text :=
  match cs with
  | c :: r => if c =? "-" then (true, r) else (false, cs)
  | [] => (false, [])
  end.

(** What follows the integer part of a number: an optional fraction and
    an optional exponent. *)
Definition parseNumberTail (neg : bool) (ip : uint) (cs : text)
  : option (json * text) :=
  match scanFraction cs with
  | Some (fp, cs3) =>
      match scanExponent cs3 with
      | Some (ex, cs4) =>
          match fp, ex with
          | Nil, None =>
              let n := Z.of_N (N.of_uint ip) in
              Some (JInt (if neg then - n else n), cs4)
          | _, _ => Some (JReal neg ip fp ex, cs4)
          end
      | None => None
      end
  | None => None
  end.

Definition parseNumber (cs : text) : option (json * text) :=
  let '(neg, cs1) := scanSign cs in
  let '(ip, cs2) := scanDigits cs1 in
  if integerPartOk ip then parseNumberTail neg ip cs2 else None.

Definition isEscape (c : ascii) : bool :=
  match c with
  | "034" | "\" | "/" | "b" | "f" | "n" | "r" | "t" => true
  | _ => false
  end.

Definition isControl (c : ascii) : bool := (nat_of_ascii c <? 32)%nat.

(** The characters of a string literal, after its opening quote and up to
    its closing quote. *)
Fixpoint scanString (cs : text) : option (text * text) :=
  match cs with
  | [] => None
  | c :: r =>
      if c =? "034" then Some ([], r)
      else if c =? "\" then
        match r with
        | e :: r1 =>
            if isEscape e then
              match scanString r1 with
              | Some (s, r') => Some (c :: e :: s, r')
              | None => None
              end
            else if e =? "u" then
              match r1 with
              | h1 :: h2 :: h3 :: h4 :: r2 =>
                  if isHexDigit h1 && isHexDigit h2
                     && isHexDigit h3 && isHexDigit h4 then
                    match scanString r2 with
                    | Some (s, r') =>
                        Some (c :: e :: h1 :: h2 :: h3 :: h4 :: s, r')
                    | None => None
                    end
                  else None
              | _ => None
              end
            else None
        | [] => None
        end
      else if isControl c then None
      else
        match scanString r with
        | Some (s, r') => Some (c :: s, r')
        | None => None
        end
  end.

(** Whether a text starts with a given character. *)
Definition startsWith (c : ascii) (cs : text) : bool :=
  match cs with
  | c' :: _ => c' =? c
  | [] => false
  end.

(** [stripPrefix p cs] is the rest of [cs] after the keyword [p]. *)
Fixpoint stripPrefix (p cs : text) : option text :=
  match p, cs with
  | [], _ => Some cs
  | a :: p', c :: r => if a =? c then stripPrefix p' r else None
  | _ :: _, [] => None
  end.

Definition parseKeyword (cs : text) : option (json * text) :=
  match stripPrefix (list_ascii_of_string "null") cs with
  | Some r => Some (JNull, r)
  | None =>
      match stripPrefix (list_ascii_of_string "true") cs with
      | Some r => Some (JBool true, r)
      | None =>
          match stripPrefix (list_ascii_of_string "false") cs with
          | Some r => Some (JBool false, r)
          | None => None
          end
      end
  end.

(** ** Values

    The grammar is recursive through arrays and objects; the parser
    recurses on a fuel that [parse] sets from the length of the text. *)
Fixpoint parseValue (fuel : nat) (cs : text) : option (json * text) :=
  match fuel with
  | O => None
  | S fuel =>
      match skipWhitespace cs with
      | [] => None
      | c :: r =>
          if c =? "[" then
            if startsWith "]" (skipWhitespace r) then
              Some (JArray [], tail (skipWhitespace r))
            else
              match parseElements fuel r with
              | Some (vs, r') => Some (JArray vs, r')
              | None => None
              end
          else if c =? "{" then
            if startsWith "}" (skipWhitespace r) then
              Some (JObject [], tail (skipWhitespace r))
            else
              match parseMembers fuel r with
              | Some (ms, r') => Some (JObject ms, r')
              | None => None
              end
          else if c =? "034" then
            match scanString r with
            | Some (s, r') => Some (JString s, r')
            | None => None
            end
          else if (c =? "-") || isDigit c then parseNumber (c :: r)
          else parseKeyword (c :: r)
      end
  end
with parseElements (fuel : nat) (cs : text) : option (list json * text) :=
  match fuel with
  | O => None
  | S fuel =>
      match parseValue fuel cs with
      | Some (v, r) =>
          match skipWhitespace r with
          | c :: r' =>
              if c =? "," then
                match parseElements fuel r' with
                | Some (vs, r'') => Some (v :: vs, r'')
                | None => None
                end
              else if c =? "]" then Some ([v], r')
              else None
          | [] => None
          end
      | None => None
      end
  end
with parseMembers (fuel : nat) (cs : text)
  : option (list (text * json) * text) :=
  match fuel with
  | O => None
  | S fuel =>
      if startsWith "034" (skipWhitespace cs) then
        match scanString (tail (skipWhitespace cs)) with
        | Some (k, r1) =>
            if startsWith ":" (skipWhitespace r1) then
              match parseValue fuel (tail (skipWhitespace r1)) with
              | Some (v, r3) =>
                  match skipWhitespace r3 with
                  | c :: r4 =>
                      if c =? "," then
                        match parseMembers fuel r4 with
                        | Some (ms, r5) => Some ((k, v) :: ms, r5)
                        | None => None
                        end
                      else if c =? "}" then Some ([(k, v)], r4)
                      else None
                  | [] => None
                  end
              | None => None
              end
            else None
        | None => None
        end
      else None
  end.

(** [JSON.parse]: one value, white space around it, nothing else.
    [None] stands for the [SyntaxError] the platform throws. *)
Definition parse (s : string) : option json :=
  let cs := list_ascii_of_string s in
  match parseValue (2 * length cs + 2) cs with
  | Some (v, r) =>
      match skipWhitespace r with
      | [] => Some v
      | _ :: _ => None
      end
  | None => None
  end.

(** ** [JSON.stringify] on an array of product identifiers *)

Fixpoint digitsOf (u : uint) : text :=
  match u with
  | Nil => []
  | D0 u => "0" :: digitsOf u | D1 u => "1" :: digitsOf u
  | D2 u => "2" :: digitsOf u | D3 u => "3" :: digitsOf u
  | D4 u => "4" :: digitsOf u | D5 u => "5" :: digitsOf u
  | D6 u => "6" :: digitsOf u | D7 u => "7" :: digitsOf u
  | D8 u => "8" :: digitsOf u | D9 u => "9" :: digitsOf u
  end.

Definition numberToString (z : Z) : text :=
  match z with
  | Z0 => ["0"]
  | Zpos p => digitsOf (Pos.to_uint p)
  | Zneg p => "-" :: digitsOf (Pos.to_uint p)
  end.

Fixpoint joinElements (l : list text) : text :=
  match l with
  | [] => []
  | [x] => x
  | x :: r => x ++ "," :: joinElements r
  end.

Definition stringifyText (ids : list Z) : text :=
  "[" :: joinElements (map numberToString ids) ++ ["]"].

Definition stringify (ids : list Z) : string :=
  string_of_list_ascii (stringifyText ids).

(** ** Reading an array of identifiers back from a parsed value *)

Definition asId (j : json) : option Z :=
  match j with
  | JInt z => Some z
  | _ => None
  end.

Definition asIds (j : json) : option (list Z) :=
  match j with
  | JArray l => mapM asId l
  | _ => None
  end.

(** ** Shapes of texts used to state what the parser reads *)

(** A text that starts with a separator of the array syntax. *)
Definition delimited (r : text) : Prop :=
  exists r', r = "," :: r' \/ r = "]" :: r'.

(** A number starts with a minus sign or with a digit. *)
Definition startsNumber (c : ascii) : Prop := c = "-" \/ isDigit c = true.

End JSON.

(* ===================================================================== *)
(** * The provider *)
(* ===================================================================== *)

(** A product record of the catalog service, read only. *)
Module Product.

Record Rating : Type := { rate : Q; count : Z }.

Record t : Type := {
  id : Z;
  title : string;
  price : Q;
  category : string;
  description : string;
  image : string;
  rating : Rating
}.

End Product.

Module Shop.

Local Open Scope string_scope.

(** ** State cells of [AppProvider] *)

Record AppState : Type := {
  products : list Product.t;
  categories : list string;
  filteredProducts : list Product.t;
  currentFilter : string;
  likedProducts : list Z;
  dislikedProducts : list Z;
  loading : bool;
  error : option string;
  currentView : string;
  selectedProduct : option Product.t
}.

(** The setters [useState] returns, one per cell. *)
Definition setProducts (v : list Product.t) (s : AppState) : AppState :=
  {| products := v; categories := categories s;
     filteredProducts := filteredProducts s;
     currentFilter := currentFilter s; likedProducts := likedProducts s;
     dislikedProducts := dislikedProducts s; loading := loading s;
     error := error s; currentView := currentView s;
     selectedProduct := selectedProduct s |}.

Definition setCategories (v : list string) (s : AppState) : AppState :=
  {| products := products s; categories := v;
     filteredProducts := filteredProducts s;
     currentFilter := currentFilter s; likedProducts := likedProducts s;
     dislikedProducts := dislikedProducts s; loading := loading s;
     error := error s; currentView := currentView s;
     selectedProduct := selectedProduct s |}.

Definition setFilteredProducts (v : list Product.t) (s : AppState)
  : AppState :=
  {| products := products s; categories := categories s;
     filteredProducts := v;
     currentFilter := currentFilter s; likedProducts := likedProducts s;
     dislikedProducts := dislikedProducts s; loading := loading s;
     error := error s; currentView := currentView s;
     selectedProduct := selectedProduct s |}.

Definition setCurrentFilter (v : string) (s : AppState) : AppState :=
  {| products := products s; categories := categories s;
     filteredProducts := filteredProducts s;
     currentFilter := v; likedProducts := likedProducts s;
     dislikedProducts := dislikedProducts s; loading := loading s;
     error := error s; currentView := currentView s;
     selectedProduct := selectedProduct s |}.

Definition setLikedProducts (v : list Z) (s : AppState) : AppState :=
  {| products := products s; categories := categories s;
     filteredProducts := filteredProducts s;
     currentFilter := currentFilter s; likedProducts := v;
     dislikedProducts := dislikedProducts s; loading := loading s;
     error := error s; currentView := currentView s;
     selectedProduct := selectedProduct s |}.

Definition setDislikedProducts (v : list Z) (s : AppState) : AppState :=
  {| products := products s; categories := categories s;
     filteredProducts := filteredProducts s;
     currentFilter := currentFilter s; likedProducts := likedProducts s;
     dislikedProducts := v; loading := loading s;
     error := error s; currentView := currentView s;
     selectedProduct := selectedProduct s |}.

Definition setLoading (v : bool) (s : AppState) : AppState :=
  {| products := products s; categories := categories s;
     filteredProducts := filteredProducts s;
     currentFilter := currentFilter s; likedProducts := likedProducts s;
     dislikedProducts := dislikedProducts s; loading := v;
     error := error s; currentView := currentView s;
     selectedProduct := selectedProduct s |}.

Definition setError (v : option string) (s : AppState) : AppState :=
  {| products := products s; categories := categories s;
     filteredProducts := filteredProducts s;
     currentFilter := currentFilter s; likedProducts := likedProducts s;
     dislikedProducts := dislikedProducts s; loading := loading s;
     error := v; currentView := currentView s;
     selectedProduct := selectedProduct s |}.

Definition setCurrentView (v : string) (s : AppState) : AppState :=
  {| products := products s; categories := categories s;
     filteredProducts := filteredProducts s;
     currentFilter := currentFilter s; likedProducts := likedProducts s;
     dislikedProducts := dislikedProducts s; loading := loading s;
     error := error s; currentView := v;
     selectedProduct := selectedProduct s |}.

Definition setSelectedProduct (v : option Product.t) (s : AppState)
  : AppState :=
  {| products := products s; categories := categories s;
     filteredProducts := filteredProducts s;
     currentFilter := currentFilter s; likedProducts := likedProducts s;
     dislikedProducts := dislikedProducts s; loading := loading s;
     error := error s; currentView := currentView s;
     selectedProduct := v |}.

(** The cells as [useState] initialises them, the two preference lists
    being what their lazy initialisers returned. *)
Definition initialState (liked disliked : list Z) : AppState :=
  {| products := []; categories := []; filteredProducts := [];
     currentFilter := "all"; likedProducts := liked;
     dislikedProducts := disliked; loading := true; error := None;
     currentView := "home"; selectedProduct := None |}.

(** ** Functions exported through the context *)

(** [Array.prototype.includes] on a list of identifiers. *)
Fixpoint includes (x : Z) (l : list Z) : bool :=
  match l with
  | [] => false
  | y :: r => (y =? x)%Z || includes x r
  end.

Definition filterProducts (category : string) (s : AppState) : AppState :=
  let s1 := setCurrentFilter category s in
  if String.eqb category "all" then
    setFilteredProducts (products s) s1
  else
    setFilteredProducts
      (filter (fun p => Product.category p = category) (products s)) s1.

(** [toggleLike] queues an updater on the liked cell; when the identifier
    is not liked yet, that updater queues a second one on the disliked
    cell.  Both have run when the call is committed. *)
Definition toggleLike (productId : Z) (s : AppState) : AppState :=
  let prev := likedProducts s in
  if includes productId prev then
    setLikedProducts (filter (fun id => id <> productId) prev) s
  else
    let s1 :=
      setDislikedProducts
        (filter (fun id => id <> productId) (dislikedProducts s)) s in
    setLikedProducts (prev ++ [productId]) s1.

Definition toggleDislike (productId : Z) (s : AppState) : AppState :=
  let prev := dislikedProducts s in
  if includes productId prev then
    setDislikedProducts (filter (fun id => id <> productId) prev) s
  else
    let s1 :=
      setLikedProducts
        (filter (fun id => id <> productId) (likedProducts s)) s in
    setDislikedProducts (prev ++ [productId]) s1.

(** [navigateTo (view, product = null)]: [None] is the omitted argument,
    which the default turns into [null]. *)
Definition navigateTo (view : string) (product : option Product.t)
    (s : AppState) : AppState :=
  setSelectedProduct product (setCurrentView view s).

(** The calls a consumer can make on the context. *)
Inductive Action : Type :=
| FilterProducts (category : string)
| ToggleLike (productId : Z)
| ToggleDislike (productId : Z)
| NavigateTo (view : string) (product : option Product.t).

Definition step (a : Action) (s : AppState) : AppState :=
  match a with
  | FilterProducts c => filterProducts c s
  | ToggleLike i => toggleLike i s
  | ToggleDislike i => toggleDislike i s
  | NavigateTo v p => navigateTo v p s
  end.

Definition run (acts : list Action) (s : AppState) : AppState :=
  foldl (fun s a => step a s) s acts.

(** ** What the cards read: the preference of one product *)

Inductive Preference : Type := NEUTRAL | LIKED | DISLIKED.

Definition isLiked (s : AppState) (i : Z) : bool :=
  includes i (likedProducts s).

Definition isDisliked (s : AppState) (i : Z) : bool :=
  includes i (dislikedProducts s).

(** [None] when the identifier is in both lists. *)
Definition preference (s : AppState) (i : Z) : option Preference :=
  match isLiked s i, isDisliked s i with
  | false, false => Some NEUTRAL
  | true, false => Some LIKED
  | false, true => Some DISLIKED
  | true, true => None
  end.

(** What [FavoritesView] lists. *)
Definition favoriteProducts (s : AppState) : list Product.t :=
  filter (fun p => includes (Product.id p) (likedProducts s) = true)
    (products s).

(** ** Local storage and the persistence effects *)

(** The provider and the key-value store of the browser. *)
Record World : Type := {
  app : AppState;
  localStorage : gmap string string
}.

Definition persistLiked (s : AppState) (st : gmap string string)
  : gmap string string :=
  <["likedProducts" := JSON.stringify (likedProducts s)]> st.

Definition persistDisliked (s : AppState) (st : gmap string string)
  : gmap string string :=
  <["dislikedProducts" := JSON.stringify (dislikedProducts s)]> st.

(** An effect runs after a commit in which its dependency is a new
    array.  [filter] and the spread both allocate, so the dependency is
    new exactly when the setter of the cell was called: the liked cell is
    set by every [toggleLike], and by a [toggleDislike] that takes the
    branch adding the identifier; symmetrically for the disliked cell. *)
Definition likedEffectRuns (a : Action) (s : AppState) : bool :=
  match a with
  | ToggleLike _ => true
  | ToggleDislike i => negb (includes i (dislikedProducts s))
  | _ => false
  end.

Definition dislikedEffectRuns (a : Action) (s : AppState) : bool :=
  match a with
  | ToggleDislike _ => true
  | ToggleLike i => negb (includes i (likedProducts s))
  | _ => false
  end.

(** One call on the context, committed, followed by the effects. *)
Definition dispatch (a : Action) (w : World) : World :=
  let s' := step a (app w) in
  let st1 :=
    if likedEffectRuns a (app w) then persistLiked s' (localStorage w)
    else localStorage w in
  let st2 :=
    if dislikedEffectRuns a (app w) then persistDisliked s' st1
    else st1 in
  {| app := s'; localStorage := st2 |}.

Definition dispatchAll (acts : list Action) (w : World) : World :=
  foldl (fun w a => dispatch a w) w acts.

(** ** Construction of the provider *)

(** Truthiness of a string: only the empty string is falsy. *)
Definition truthy (s : string) : bool :=
  match s with
  | EmptyString => false
  | String _ _ => true
  end.

(** The lazy initialiser of a preference cell,
    [saved ? JSON.parse(saved) : []], on what [getItem] returned
    ([None] is [null]).  The result [None] is the exception of
    [JSON.parse]. *)
Definition initialItems (saved : option string) : option JSON.json :=
  match saved with
  | Some text => if truthy text then JSON.parse text
                 else Some (JSON.JArray [])
  | None => Some (JSON.JArray [])
  end.

(** The start of [fetchData], up to its first [await]. *)
Definition fetchDataStart (s : AppState) : AppState :=
  setError None (setLoading true s).

(** How the construction of the provider ends: an initialiser threw; or
    an initialiser returned a value that is not an array of integers,
    which the provider never writes and whose handling is not modelled;
    or the provider is mounted and its effects have run once. *)
Inductive Mount : Type :=
| MountThrows
| MountForeign
| Mounted (w : World).

Definition mount (st : gmap string string) : Mount :=
  match initialItems (st !! "likedProducts") with
  | None => MountThrows
  | Some jl =>
      match initialItems (st !! "dislikedProducts") with
      | None => MountThrows
      | Some jd =>
          match JSON.asIds jl, JSON.asIds jd with
          | Some l, Some d =>
              let s := fetchDataStart (initialState l d) in
              Mounted {| app := s;
                         localStorage :=
                           persistDisliked s (persistLiked s st) |}
          | _, _ => MountForeign
          end
      end
  end.

(** A page visit: the provider is constructed on the storage the browser
    holds, then the calls of the visit are dispatched. *)
Definition visit (acts : list Action) (st : gmap string string) : Mount :=
  match mount st with
  | Mounted w => Mounted (dispatchAll acts w)
  | failure => failure
  end.

(** Successive visits, each on the storage the previous one left. *)
Fixpoint visits (history : list (list Action)) (st : gmap string string)
  : option (gmap string string) :=
  match history with
  | [] => Some st
  | acts :: later =>
      match visit acts st with
      | Mounted w => visits later (localStorage w)
      | _ => None
      end
  end.

(** ** The catalog loader *)

(** What a [fetch] settles to: a rejection, carrying the message of the
    error of the platform, or a response, with its [ok] flag and with what
    reading its body as JSON will give. *)
Inductive Body (A : Type) : Type :=
| BodyRejected (message : string)
| BodyJson (data : A).

Inductive Fetched (A : Type) : Type :=
| Rejected (message : string)
| Responded (ok : bool) (body : Body A).

Arguments BodyRejected {A} message.
Arguments BodyJson {A} data.
Arguments Rejected {A} message.
Arguments Responded {A} ok body.

(** The two requests of the start-up, and which one settles first when
    both are rejected ([Promise.all] rejects with the first rejection). *)
Record Requests : Type := {
  productsRequest : Fetched (list Product.t);
  categoriesRequest : Fetched (list string);
  categoriesSettleFirst : bool
}.

(** The body of an [async] function over the cells: it ends with a value
    or with a thrown error, of which only the message is read. *)
Definition Async (A : Type) : Type := AppState -> (string + A) * AppState.

#[export] Instance Async_ret : MRet Async :=
  fun A (a : A) s => (inr a, s).

#[export] Instance Async_bind : MBind Async :=
  fun A B (k : A -> Async B) (m : Async A) s =>
    match m s with
    | (inr a, s') => k a s'
    | (inl e, s') => (inl e, s')
    end.

#[export] Instance Async_throw : MThrow string Async :=
  fun A (e : string) s => (inl e, s).

(** A call of a setter. *)
Definition set (f : AppState -> AppState) : Async unit :=
  fun s => (inr tt, f s).

(** [try body catch (err) handler(err.message) finally final]. *)
Definition tryCatchFinally (body : Async unit)
    (handler : string -> Async unit) (final : Async unit) : Async unit :=
  fun s =>
    match body s with
    | (inr tt, s1) => final s1
    | (inl e, s1) =>
        match handler e s1 with
        | (inr tt, s2) => final s2
        | (inl e', s2) =>
            match final s2 with
            | (inr tt, s3) => (inl e', s3)
            | thrown => thrown
            end
        end
    end.

(** [await Promise.all([p, q])]. *)
Definition awaitAll (r : Requests)
  : Async ((bool * Body (list Product.t)) * (bool * Body (list string))) :=
  match productsRequest r, categoriesRequest r with
  | Rejected m, Rejected m' =>
      mthrow (if categoriesSettleFirst r then m' else m)
  | Rejected m, Responded _ _ => mthrow m
  | Responded _ _, Rejected m' => mthrow m'
  | Responded ok b, Responded ok' b' => mret ((ok, b), (ok', b'))
  end.

(** [await res.json()]. *)
Definition awaitJson {A : Type} (b : Body A) : Async A :=
  match b with
  | BodyRejected m => mthrow m
  | BodyJson data => mret data
  end.

Definition fetchData (r : Requests) : Async unit :=
  tryCatchFinally
    (set (setLoading true);;
     set (setError None);;
     '(productsRes, categoriesRes) ← awaitAll r;
     (if negb (fst productsRes) || negb (fst categoriesRes)
      then mthrow "Failed to fetch data" else mret tt);;
     productsData ← awaitJson (snd productsRes);
     categoriesData ← awaitJson (snd categoriesRes);
     set (setProducts productsData);;
     set (setCategories categoriesData);;
     set (setFilteredProducts productsData))
    (fun message => set (setError (Some message)))
    (set (setLoading false)).

(** The cells once [fetchData] has completed. *)
Definition loaded (r : Requests) (s : AppState) : AppState :=
  snd (fetchData r s).

(** The completion of [fetchData] sets no preference cell, so no
    persistence effect follows it. *)
Definition fetchSettled (r : Requests) (w : World) : World :=
  {| app := loaded r (app w); localStorage := localStorage w |}.



(** ** The [App] component *)

Inductive Screen : Type :=
| LoadingSpinner
| ErrorState (message : string)
| Pages (view : string) (shown : list Product.t).

(** [if (loading) ...; if (error) ...; ...]: the error screen is chosen
    when the error cell holds a truthy value. *)
Definition App (s : AppState) : Screen :=
  if loading s then LoadingSpinner
  else
    match error s with
    | Some message =>
        if truthy message then ErrorState message
        else Pages (currentView s) (filteredProducts s)
    | None => Pages (currentView s) (filteredProducts s)
    end.

(** ** Predicates on the provider used in the statements *)

(** No identifier is in both lists. *)
Definition exclusive (s : AppState) : Prop :=
  forall i, ~ (i ∈ likedProducts s /\ i ∈ dislikedProducts s).

(** Each key holds the serialisation of its list. *)
Definition synced (w : World) : Prop :=
  localStorage w !! "likedProducts"
  = Some (JSON.stringify (likedProducts (app w)))
  /\ localStorage w !! "dislikedProducts"
     = Some (JSON.stringify (dislikedProducts (app w))).

(** What the initialisers read from a storage is a pair of lists of
    identifiers. *)
Definition restores (st : gmap string string) (l d : list Z) : Prop :=
  initialItems (st !! "likedProducts") = Some (JSON.JArray (map JSON.JInt l))
  /\ initialItems (st !! "dislikedProducts")
     = Some (JSON.JArray (map JSON.JInt d)).


End Shop.

(* ===================================================================== *)
(** * A small catalog *)
(* ===================================================================== *)

Module Sample.

Import Shop.
Local Open Scope string_scope.

Definition product (i : Z) (c : string) : Product.t :=
  {| Product.id := i; Product.title := "item"; Product.price := 10 # 1;
     Product.category := c; Product.description := "";
     Product.image := "";
     Product.rating := {| Product.rate := 4 # 1; Product.count := 3 |} |}.

(** The catalog of the end-to-end scenario, loaded. *)
Definition catalog : list Product.t := [product 1 "a"; product 2 "b"].

(** Both requests of the start-up succeed. *)
Definition served : Requests :=
  {| productsRequest := Responded true (BodyJson catalog);
     categoriesRequest := Responded true (BodyJson ["a"; "b"]);
     categoriesSettleFirst := false |}.

Definition browsing : AppState :=
  loaded served (fetchDataStart (initialState [] [])).

End Sample.

(* ===================================================================== *)
(** * The transition table of the specification *)
(* ===================================================================== *)

Module Spec.

Import Shop.

(** The table as the specification words it: [toggleLike] takes NEUTRAL
    to LIKED, LIKED to NEUTRAL and DISLIKED to LIKED. *)
Definition afterLike (p : Preference) : Preference :=
  match p with
  | NEUTRAL => LIKED
  | LIKED => NEUTRAL
  | DISLIKED => LIKED
  end.

(** [toggleDislike] takes NEUTRAL to DISLIKED, DISLIKED to NEUTRAL and
    LIKED to DISLIKED. *)
Definition afterDislike (p : Preference) : Preference :=
  match p with
  | NEUTRAL => DISLIKED
  | DISLIKED => NEUTRAL
  | LIKED => DISLIKED
  end.

End Spec.

(* ===================================================================== *)
(** * The components that read the context *)
(* ===================================================================== *)

Module Views.

Import Shop.
Local Open Scope string_scope.

#[export] Instance Q_eq_dec : EqDecision Q.
Proof. solve_decision. Defined.

#[export] Instance Rating_eq_dec : EqDecision Product.Rating.
Proof. solve_decision. Defined.

#[export] Instance Product_eq_dec : EqDecision Product.t.
Proof. solve_decision. Defined.

(** ** [Header] *)

(** The badge on the favorites button: shown when the liked list is not
    empty, with the length of that list. *)
Definition favoritesBadge (s : AppState) : option nat :=
  if (0 <? length (likedProducts s))%nat
  then Some (length (likedProducts s))
  else None.

(** ** [HomeView] *)

Definition getCategoryCount (category : string) (s : AppState) : nat :=
  length (filter (fun p => Product.category p = category) (products s)).

(** One card per category, with its count. *)
Definition HomeView (s : AppState) : list (string * nat) :=
  map (fun category => (category, getCategoryCount category s))
    (categories s).

(** The timer a category card starts: [filterProducts] of the render in
    which the card was clicked, whose [products] is the list of that
    render. *)
Definition categoryCardTimer (captured : list Product.t)
    (category : string) (s : AppState) : AppState :=
  let s1 := setCurrentFilter category s in
  if String.eqb category "all" then setFilteredProducts captured s1
  else
    setFilteredProducts
      (filter (fun p => Product.category p = category) captured) s1.

(** A click on a category card: the navigation at once, then whatever is
    called before the timer fires, then the timer. *)
Definition categoryCardClick (category : string) (between : list Action)
    (s : AppState) : AppState :=
  categoryCardTimer (products s) category
    (run between (navigateTo "products" None s)).

(** ** [ProductCard] and [ProductDetailView] *)

Record Card : Type := {
  cardProduct : Product.t;
  cardLiked : bool;
  cardDisliked : bool
}.

Definition ProductCard (s : AppState) (p : Product.t) : Card :=
  {| cardProduct := p;
     cardLiked := includes (Product.id p) (likedProducts s);
     cardDisliked := includes (Product.id p) (dislikedProducts s) |}.

(** [None] is the [null] the component returns when nothing is
    selected. *)
Definition ProductDetailView (s : AppState) : option Card :=
  match selectedProduct s with
  | None => None
  | Some p => Some (ProductCard s p)
  end.

(** ** [ProductsView] and [FavoritesView] *)

Record ProductsScreen : Type := {
  showing : nat;
  categoryLabel : string;
  productCards : list Card
}.

Definition ProductsView (s : AppState) : ProductsScreen :=
  {| showing := length (filteredProducts s);
     categoryLabel :=
       if String.eqb (currentFilter s) "all" then "All" else currentFilter s;
     productCards := map (ProductCard s) (filteredProducts s) |}.

Inductive FavoritesScreen : Type :=
| NoFavoritesYet
| Favorites (count : nat) (cards : list Card).

Definition FavoritesView (s : AppState) : FavoritesScreen :=
  if (length (favoriteProducts s) =? 0)%nat then NoFavoritesYet
  else Favorites (length (favoriteProducts s))
         (map (ProductCard s) (favoriteProducts s)).

(** ** The pages of [App] *)

Inductive Page : Type :=
| HomePage (categoryCards : list (string * nat))
| ProductsPage (screen : ProductsScreen)
| FavoritesPage (screen : FavoritesScreen)
| DetailPage (card : option Card).

(** What [App] puts under the header: four independent tests on the view
    name. *)
Definition mainContent (s : AppState) : list Page :=
  (if String.eqb (currentView s) "home" then [HomePage (HomeView s)]
   else [])
  ++ (if String.eqb (currentView s) "products"
      then [ProductsPage (ProductsView s)] else [])
  ++ (if String.eqb (currentView s) "favorites"
      then [FavoritesPage (FavoritesView s)] else [])
  ++ (if String.eqb (currentView s) "detail"
      then [DetailPage (ProductDetailView s)] else []).

(** ** The calls the components make

    The products whose cards are on the page. *)
Definition cardsShown (s : AppState) : list Product.t :=
  if String.eqb (currentView s) "products" then filteredProducts s
  else if String.eqb (currentView s) "favorites" then favoriteProducts s
  else [].

(** The like and dislike buttons that are on the page: those of the cards,
    and on the detail page those of the selected product. *)
Definition toggleOffered (s : AppState) (i : Z) : bool :=
  bool_decide (i ∈ map Product.id (cardsShown s))
  || (String.eqb (currentView s) "detail"
      && match selectedProduct s with
         | Some q => (Product.id q =? i)%Z
         | None => false
         end).

(** Whether a call can come from the components, in a given state.  Nothing
    is offered under the spinner or the error screen.  The header, the hero,
    the back button and the empty favorites page navigate to one of three
    views without a product; only a card navigates to the detail view, with
    its product.  [filterProducts] is called by the buttons of the products
    page, with ["all"] or a category of the list, and by the timer of a
    category card, which may fire on any page. *)
Definition offers (s : AppState) (a : Action) : bool :=
  match App s with
  | Pages _ _ =>
      match a with
      | NavigateTo view None =>
          String.eqb view "home" || String.eqb view "products"
          || String.eqb view "favorites"
      | NavigateTo view (Some p) =>
          String.eqb view "detail" && bool_decide (p ∈ cardsShown s)
      | ToggleLike i => toggleOffered s i
      | ToggleDislike i => toggleOffered s i
      | FilterProducts c =>
          bool_decide (c ∈ categories s)
          || (String.eqb c "all" && String.eqb (currentView s) "products")
      end
  | _ => false
  end.

(** A sequence of calls, each offered in the state it is made in. *)
Fixpoint browse (acts : list Action) (s : AppState) : option AppState :=
  match acts with
  | [] => Some s
  | a :: rest => if offers s a then browse rest (step a s) else None
  end.

(** The state of a provider constructed with two lists, once its fetch has
    settled. *)
Definition afterLoad (r : Requests) (liked disliked : list Z) : AppState :=
  loaded r (fetchDataStart (initialState liked disliked)).

(** What the preferences and the catalog are expected to satisfy for the
    counts of the pages to agree: no identifier twice in the catalog, none
    twice in the liked list, and every liked identifier in the catalog. *)
Definition likedInCatalog (s : AppState) : Prop :=
  NoDup (map Product.id (products s))
  /\ NoDup (likedProducts s)
  /\ forall i, i ∈ likedProducts s -> i ∈ map Product.id (products s).

(** ** Shapes of states used in the statements

    The state [fetchData] ends in when both requests succeed, and the one it
    ends in when it fails with a message. *)
Definition succeeded (ps : list Product.t) (cs : list string)
    (s : AppState) : AppState :=
  setLoading false
    (setFilteredProducts ps
       (setCategories cs
          (setProducts ps (setError None (setLoading true s))))).

Definition failed (message : string) (s : AppState) : AppState :=
  setLoading false
    (setError (Some message) (setError None (setLoading true s))).

(** The list a filter shows of a catalog, and the states whose filtered
    list is that list. *)
Definition shownFor (category : string) (ps : list Product.t)
  : list Product.t :=
  if String.eqb category "all" then ps
  else filter (fun p => Product.category p = category) ps.

Definition filterFollowed (s : AppState) : Prop :=
  filteredProducts s = shownFor (currentFilter s) (products s).

(** What the pages rely on: a view [App] knows, a selected product of the
    catalog on the detail view, a filter that is ["all"] or a category
    received, and a filtered list drawn from the catalog. *)
Definition pageInvariant (s : AppState) : Prop :=
  (currentView s = "home" \/ currentView s = "products"
   \/ currentView s = "favorites" \/ currentView s = "detail")
  /\ (currentView s = "detail" ->
      exists q, selectedProduct s = Some q /\ q ∈ products s)
  /\ (currentFilter s = "all" \/ currentFilter s ∈ categories s)
  /\ (forall p, p ∈ filteredProducts s -> p ∈ products s).

End Views.

(* ===================================================================== *)
(** * Reading back what [JSON.stringify] wrote *)
(* ===================================================================== *)

Module JSONFacts.

Import JSON.
Local Open Scope char_scope.

Lemma digitOf_digitsOf_head (u : uint) :
  u <> Nil ->
  exists c t, digitsOf u = c :: t /\ isDigit c = true.
Proof.
  destruct u; intros Hu; try congruence; simpl; by eexists _, _.
Qed.

Lemma scanDigits_digitsOf (u : uint) (r : text) :
  delimited r -> scanDigits (digitsOf u ++ r) = (u, r).
Proof.
  intros [r' [-> | ->]]; induction u as [|u IH|u IH|u IH|u IH|u IH|u IH|u IH
    |u IH|u IH|u IH]; simpl; try rewrite IH; reflexivity.
Qed.

Lemma scanSign_digitsOf (u : uint) (r : text) :
  u <> Nil -> scanSign (digitsOf u ++ r) = (false, digitsOf u ++ r).
Proof. destruct u; intros Hu; try congruence; reflexivity. Qed.

Lemma parseNumberTail_delimited (neg : bool) (u : uint) (r : text) :
  delimited r ->
  parseNumberTail neg u r
  = Some (JInt (if neg then - Z.of_N (N.of_uint u)
                else Z.of_N (N.of_uint u)), r).
Proof. intros [r' [-> | ->]]; reflexivity. Qed.

Lemma parseNumber_digits (u : uint) (r : text) :
  delimited r ->
  integerPartOk u = true ->
  parseNumber (digitsOf u ++ r) = Some (JInt (Z.of_N (N.of_uint u)), r).
Proof.
  intros Hr Hok. unfold parseNumber.
  rewrite scanSign_digitsOf by (intros ->; discriminate).
  rewrite scanDigits_digitsOf by done.
  by rewrite Hok, parseNumberTail_delimited.
Qed.

Lemma parseNumber_minus_digits (u : uint) (r : text) :
  delimited r ->
  integerPartOk u = true ->
  parseNumber ("-" :: digitsOf u ++ r)
  = Some (JInt (- Z.of_N (N.of_uint u)), r).
Proof.
  intros Hr Hok. unfold parseNumber.
  change (scanSign ("-" :: digitsOf u ++ r)) with (true, digitsOf u ++ r).
  cbv beta iota. rewrite scanDigits_digitsOf by done.
  by rewrite Hok, parseNumberTail_delimited.
Qed.

(** The decimal writing of a number has no leading zero. *)
Lemma nzhead_head (u : uint) :
  match nzhead u with D0 _ => False | _ => True end.
Proof. induction u; simpl; auto. Qed.

Lemma integerPartOk_unorm (u : uint) : integerPartOk (unorm u) = true.
Proof.
  unfold unorm. pose proof (nzhead_head u) as H.
  destruct (nzhead u); simpl; try done.
Qed.

Lemma integerPartOk_to_uint (p : positive) :
  integerPartOk (Pos.to_uint p) = true.
Proof.
  pose proof (DecimalPos.Unsigned.to_of (Pos.to_uint p)) as Hn.
  rewrite DecimalPos.Unsigned.of_to in Hn. simpl in Hn.
  rewrite Hn. apply integerPartOk_unorm.
Qed.

Lemma parseNumber_numberToString (z : Z) (r : text) :
  delimited r ->
  parseNumber (numberToString z ++ r) = Some (JInt z, r).
Proof.
  intros Hr. destruct z as [|p|p]; simpl numberToString.
  - change (["0"] ++ r) with (digitsOf (D0 Nil) ++ r).
    by rewrite parseNumber_digits.
  - rewrite parseNumber_digits by auto using integerPartOk_to_uint.
    change (N.of_uint (Pos.to_uint p)) with (Pos.of_uint (Pos.to_uint p)).
    by rewrite DecimalPos.Unsigned.of_to.
  - change (("-" :: digitsOf (Pos.to_uint p)) ++ r)
      with ("-" :: digitsOf (Pos.to_uint p) ++ r).
    rewrite parseNumber_minus_digits by auto using integerPartOk_to_uint.
    change (N.of_uint (Pos.to_uint p)) with (Pos.of_uint (Pos.to_uint p)).
    by rewrite DecimalPos.Unsigned.of_to.
Qed.

Lemma numberToString_head (z : Z) :
  exists c t, numberToString z = c :: t /\ startsNumber c.
Proof.
  destruct z as [|p|p]; simpl.
  - eexists _, _; split; [done | by right].
  - destruct (digitOf_digitsOf_head (Pos.to_uint p)) as (c & t & -> & Hc).
    { apply DecimalPos.Unsigned.to_uint_nonnil. }
    eexists _, _; split; [done | by right].
  - eexists _, _; split; [done | by left].
Qed.

Lemma parseValue_number (fuel : nat) (c : ascii) (r : text) :
  startsNumber c ->
  parseValue (S fuel) (c :: r) = parseNumber (c :: r).
Proof.
  intros [-> | Hc]; [reflexivity |].
  destruct c as [[] [] [] [] [] [] [] []]; try discriminate Hc; reflexivity.
Qed.

Lemma parseValue_array (fuel : nat) (c : ascii) (r : text) :
  startsNumber c ->
  parseValue (S fuel) ("[" :: c :: r)
  = match parseElements fuel (c :: r) with
    | Some (vs, r') => Some (JArray vs, r')
    | None => None
    end.
Proof.
  intros [-> | Hc]; [reflexivity |].
  destruct c as [[] [] [] [] [] [] [] []]; try discriminate Hc; reflexivity.
Qed.

Lemma parseValue_numberToString (fuel : nat) (z : Z) (r : text) :
  delimited r ->
  parseValue (S fuel) (numberToString z ++ r) = Some (JInt z, r).
Proof.
  intros Hr. rewrite <- (parseNumber_numberToString z r Hr).
  destruct (numberToString_head z) as (c & t & -> & Hc).
  by apply parseValue_number.
Qed.

Lemma parseElements_step (fuel : nat) (cs : text) :
  parseElements (S fuel) cs
  = match parseValue fuel cs with
    | Some (v, r) =>
        match skipWhitespace r with
        | c :: r' =>
            if c =? "," then
              match parseElements fuel r' with
              | Some (vs, r'') => Some (v :: vs, r'')
              | None => None
              end
            else if c =? "]" then Some ([v], r')
            else None
        | [] => None
        end
    | None => None
    end.
Proof. reflexivity. Qed.

(** The elements of a written array are read back, given one unit of
    fuel per element and one more. *)
Lemma parseElements_ids (ids : list Z) :
  ids <> [] ->
  forall (fuel : nat) (r : text),
    (length ids < fuel)%nat ->
    parseElements fuel (joinElements (map numberToString ids) ++ "]" :: r)
    = Some (map JInt ids, r).
Proof.
  induction ids as [|z ids IH]; [done |]. intros _ fuel r Hfuel.
  destruct fuel as [|fuel]; [simpl in Hfuel; lia |].
  rewrite parseElements_step.
  destruct ids as [|z' ids].
  - simpl in Hfuel. destruct fuel as [|fuel]; [lia |].
    simpl joinElements.
    rewrite parseValue_numberToString by (exists r; by right).
    reflexivity.
  - destruct fuel as [|fuel]; [simpl in Hfuel; lia |].
    change (joinElements (map numberToString (z :: z' :: ids)))
      with (numberToString z
            ++ "," :: joinElements (map numberToString (z' :: ids))).
    rewrite <- app_assoc.
    change (("," :: joinElements (map numberToString (z' :: ids)))
            ++ "]" :: r)
      with ("," :: (joinElements (map numberToString (z' :: ids))
                    ++ "]" :: r)).
    rewrite parseValue_numberToString by (eexists; by left).
    change (skipWhitespace
              ("," :: (joinElements (map numberToString (z' :: ids))
                       ++ "]" :: r)))
      with ("," :: (joinElements (map numberToString (z' :: ids))
                    ++ "]" :: r)).
    cbv beta iota.
    rewrite IH; [reflexivity | done | simpl in *; lia].
Qed.

Lemma joinElements_length (ids : list Z) :
  (length ids <= length (joinElements (map numberToString ids)))%nat.
Proof.
  induction ids as [|z ids IH]; [done |].
  destruct (numberToString_head z) as (c & t & Hz & _).
  destruct ids as [|z' ids].
  - simpl. rewrite Hz. simpl. lia.
  - change (joinElements (map numberToString (z :: z' :: ids)))
      with (numberToString z
            ++ "," :: joinElements (map numberToString (z' :: ids))).
    rewrite Hz. simpl in *. rewrite length_app. simpl. lia.
Qed.

Lemma parse_stringify (ids : list Z) :
  parse (stringify ids) = Some (JArray (map JInt ids)).
Proof.
  unfold parse, stringify.
  rewrite list_ascii_of_string_of_list_ascii.
  unfold stringifyText.
  destruct ids as [|z ids]; [reflexivity |].
  set (body := joinElements (map numberToString (z :: ids))).
  assert (Hlen : (length (z :: ids) <= length body)%nat)
    by apply joinElements_length.
  assert (Hhead : exists c t, body = c :: t /\ startsNumber c).
  { subst body. destruct (numberToString_head z) as (c & t & Hz & Hc).
    destruct ids as [|z' ids].
    - simpl. rewrite Hz. by eexists _, _.
    - change (joinElements (map numberToString (z :: z' :: ids)))
        with (numberToString z
              ++ "," :: joinElements (map numberToString (z' :: ids))).
      rewrite Hz. by eexists _, _. }
  replace (2 * length ("[" :: body ++ ["]"]) + 2)%nat
    with (S (2 * length body + 5))%nat
    by (simpl; rewrite length_app; simpl; lia).
  destruct Hhead as (c & t & Hbody & Hc).
  assert (Hpe : parseElements (2 * length body + 5) (body ++ ["]"])
                = Some (map JInt (z :: ids), [])).
  { subst body. apply parseElements_ids; [done | lia]. }
  rewrite Hbody in Hpe |- *.
  change (("[" :: (c :: t) ++ ["]"])) with ("[" :: c :: (t ++ ["]"])).
  rewrite parseValue_array by done.
  change (c :: t ++ ["]"]) with ((c :: t) ++ ["]"]).
  rewrite Hpe. reflexivity.
Qed.

Lemma asIds_ints (ids : list Z) : asIds (JArray (map JInt ids)) = Some ids.
Proof.
  simpl. induction ids as [|z ids IH]; [done |].
  simpl. rewrite IH. reflexivity.
Qed.

(** ** The parser consumes what it reads *)

Lemma skipWhitespace_length (cs : text) :
  (length (skipWhitespace cs) <= length cs)%nat.
Proof.
  induction cs as [|c cs IH]; simpl; [lia |].
  destruct (isWhitespace c); simpl; lia.
Qed.

Lemma startsWith_tail (c : ascii) (cs : text) :
  startsWith c cs = true -> (length (tail cs) < length cs)%nat.
Proof. destruct cs; simpl; [discriminate | lia]. Qed.

Lemma scanDigits_length (cs : text) (u : uint) (r : text) :
  scanDigits cs = (u, r) ->
  (length r <= length cs)%nat /\ (u <> Nil -> (length r < length cs)%nat).
Proof.
  revert u r. induction cs as [|c cs IH]; simpl; intros u r H.
  - injection H as <- <-. split; [simpl; lia | congruence].
  - destruct (digitOf c) as [d|].
    + destruct (scanDigits cs) as [u' r'] eqn:E. injection H as <- <-.
      destruct (IH _ _ eq_refl) as [Hle _]. split; [lia | intros _; lia].
    + injection H as <- <-. split; [simpl; lia | congruence].
Qed.

Lemma scanFraction_length (cs : text) (f : uint) (r : text) :
  scanFraction cs = Some (f, r) -> (length r <= length cs)%nat.
Proof.
  destruct cs as [|c cs]; simpl; [by intros [= <- <-] |].
  destruct (c =? "."); [| intros [= <- <-]; simpl; lia].
  destruct (scanDigits cs) as [u r'] eqn:E.
  destruct (scanDigits_length _ _ _ E) as [Hle _].
  destruct u; intros [= <- <-]; lia.
Qed.

Lemma scanExponentDigits_length (sign : uint -> int) (cs : text)
    (e : option int) (r : text) :
  scanExponentDigits sign cs = Some (e, r) -> (length r <= length cs)%nat.
Proof.
  unfold scanExponentDigits. destruct (scanDigits cs) as [u r'] eqn:E.
  destruct (scanDigits_length _ _ _ E) as [Hle _].
  destruct u; intros [= <- <-]; lia.
Qed.

Lemma scanExponent_length (cs : text) (e : option int) (r : text) :
  scanExponent cs = Some (e, r) -> (length r <= length cs)%nat.
Proof.
  destruct cs as [|c cs]; simpl; [by intros [= <- <-] |].
  destruct ((c =? "e") || (c =? "E")); [| intros [= <- <-]; simpl; lia].
  destruct cs as [|c' cs]; [discriminate |].
  destruct (c' =? "+"); [| destruct (c' =? "-")];
    intros H%scanExponentDigits_length; simpl in *; lia.
Qed.

Lemma parseNumber_length (cs : text) (v : json) (r : text) :
  parseNumber cs = Some (v, r) -> (length r < length cs)%nat.
Proof.
  unfold parseNumber, parseNumberTail.
  destruct (scanSign cs) as [neg cs1] eqn:Es.
  assert (Hs : (length cs1 <= length cs)%nat).
  { destruct cs as [|c cs]; simpl in Es; [by injection Es as <- <- |].
    destruct (c =? "-"); injection Es as <- <-; simpl; lia. }
  destruct (scanDigits cs1) as [ip cs2] eqn:Ed.
  destruct (scanDigits_length _ _ _ Ed) as [_ Hip].
  destruct (integerPartOk ip) eqn:Eok; [| discriminate].
  assert (Hnil : ip <> Nil) by (intros ->; discriminate).
  specialize (Hip Hnil).
  destruct (scanFraction cs2) as [[fp cs3]|] eqn:Ef; [| discriminate].
  apply scanFraction_length in Ef.
  destruct (scanExponent cs3) as [[ex cs4]|] eqn:Ee; [| discriminate].
  apply scanExponent_length in Ee.
  destruct fp, ex; intros [= <- <-]; lia.
Qed.

Lemma scanString_length (cs : text) :
  forall (s r : text), scanString cs = Some (s, r) ->
                       (length r < length cs)%nat.
Proof.
  remember (length cs) as n eqn:Hn. revert cs Hn.
  induction n as [n IH] using lt_wf_ind. intros cs -> s r.
  destruct cs as [|c cs]; simpl; [discriminate |].
  destruct (c =? "034"); [intros [= <- <-]; lia |].
  destruct (c =? "\").
  - destruct cs as [|e cs]; [discriminate |].
    destruct (isEscape e).
    + destruct (scanString cs) as [[s' r']|] eqn:E; [| discriminate].
      intros [= <- <-].
      specialize (IH (length cs) ltac:(simpl; lia) cs eq_refl _ _ E).
      simpl. lia.
    + destruct (e =? "u"); [| discriminate].
      destruct cs as [|h1 [|h2 [|h3 [|h4 cs]]]]; try discriminate.
      destruct (isHexDigit h1 && isHexDigit h2 && isHexDigit h3
                && isHexDigit h4); [| discriminate].
      destruct (scanString cs) as [[s' r']|] eqn:E; [| discriminate].
      intros [= <- <-].
      specialize (IH (length cs) ltac:(simpl; lia) cs eq_refl _ _ E).
      simpl. lia.
  - destruct (isControl c); [discriminate |].
    destruct (scanString cs) as [[s' r']|] eqn:E; [| discriminate].
    intros [= <- <-].
    specialize (IH (length cs) ltac:(simpl; lia) cs eq_refl _ _ E). lia.
Qed.

Lemma stripPrefix_length (p cs r : text) :
  stripPrefix p cs = Some r -> (length r + length p = length cs)%nat.
Proof.
  revert cs. induction p as [|a p IH]; intros cs; simpl.
  - intros [= <-]. lia.
  - destruct cs as [|c cs]; [discriminate |].
    destruct (a =? c); [| discriminate].
    intros H%IH. simpl. lia.
Qed.

Lemma parseKeyword_length (cs : text) (v : json) (r : text) :
  parseKeyword cs = Some (v, r) -> (length r < length cs)%nat.
Proof.
  unfold parseKeyword.
  repeat match goal with
    | |- context [stripPrefix ?p cs] =>
        let E := fresh "E" in
        destruct (stripPrefix p cs) eqn:E;
        [apply stripPrefix_length in E; simpl in E;
         intros [= <- <-]; lia |]
    end.
  discriminate.
Qed.

Lemma parseValue_step (fuel : nat) (cs : text) :
  parseValue (S fuel) cs
  = match skipWhitespace cs with
    | [] => None
    | c :: r =>
        if c =? "[" then
          if startsWith "]" (skipWhitespace r) then
            Some (JArray [], tail (skipWhitespace r))
          else
            match parseElements fuel r with
            | Some (vs, r') => Some (JArray vs, r')
            | None => None
            end
        else if c =? "{" then
          if startsWith "}" (skipWhitespace r) then
            Some (JObject [], tail (skipWhitespace r))
          else
            match parseMembers fuel r with
            | Some (ms, r') => Some (JObject ms, r')
            | None => None
            end
        else if c =? "034" then
          match scanString r with
          | Some (s, r') => Some (JString s, r')
          | None => None
          end
        else if (c =? "-") || isDigit c then parseNumber (c :: r)
        else parseKeyword (c :: r)
    end.
Proof. reflexivity. Qed.

Lemma parseMembers_step (fuel : nat) (cs : text) :
  parseMembers (S fuel) cs
  = if startsWith "034" (skipWhitespace cs) then
      match scanString (tail (skipWhitespace cs)) with
      | Some (k, r1) =>
          if startsWith ":" (skipWhitespace r1) then
            match parseValue fuel (tail (skipWhitespace r1)) with
            | Some (v, r3) =>
                match skipWhitespace r3 with
                | c :: r4 =>
                    if c =? "," then
                      match parseMembers fuel r4 with
                      | Some (ms, r5) => Some ((k, v) :: ms, r5)
                      | None => None
                      end
                    else if c =? "}" then Some ([(k, v)], r4)
                    else None
                | [] => None
                end
            | None => None
            end
          else None
      | None => None
      end
    else None.
Proof. reflexivity. Qed.

(** What is left after a value, after the elements of an array or after
    the members of an object is shorter than what was given. *)
Lemma parse_length (fuel : nat) :
  (forall cs v r, parseValue fuel cs = Some (v, r) ->
                  (length r < length cs)%nat)
  /\ (forall cs vs r, parseElements fuel cs = Some (vs, r) ->
                      (length r < length cs)%nat)
  /\ (forall cs ms r, parseMembers fuel cs = Some (ms, r) ->
                      (length r < length cs)%nat).
Proof.
  induction fuel as [|fuel (IHv & IHe & IHm)]; [by split_and! |].
  split_and!.
  - intros cs v r. rewrite parseValue_step.
    pose proof (skipWhitespace_length cs) as Hcs.
    destruct (skipWhitespace cs) as [|c t]; [discriminate |].
    simpl in Hcs. pose proof (skipWhitespace_length t) as Ht.
    destruct (c =? "[").
    { destruct (startsWith "]" (skipWhitespace t)) eqn:Es.
      - apply startsWith_tail in Es. intros [= <- <-]. lia.
      - destruct (parseElements fuel t) as [[vs r']|] eqn:E; [| discriminate].
        apply IHe in E. intros [= <- <-]. lia. }
    destruct (c =? "{").
    { destruct (startsWith "}" (skipWhitespace t)) eqn:Es.
      - apply startsWith_tail in Es. intros [= <- <-]. lia.
      - destruct (parseMembers fuel t) as [[ms r']|] eqn:E; [| discriminate].
        apply IHm in E. intros [= <- <-]. lia. }
    destruct (c =? "034").
    { destruct (scanString t) as [[s r']|] eqn:E; [| discriminate].
      apply scanString_length in E. intros [= <- <-]. lia. }
    destruct ((c =? "-") || isDigit c).
    + intros H%parseNumber_length. simpl in H. lia.
    + intros H%parseKeyword_length. simpl in H. lia.
  - intros cs vs r. rewrite parseElements_step.
    destruct (parseValue fuel cs) as [[v r1]|] eqn:Ev; [| discriminate].
    apply IHv in Ev. pose proof (skipWhitespace_length r1) as Hr1.
    destruct (skipWhitespace r1) as [|c r2]; [discriminate |].
    simpl in Hr1. destruct (c =? ",").
    { destruct (parseElements fuel r2) as [[vs' r']|] eqn:E; [| discriminate].
      apply IHe in E. intros [= <- <-]. lia. }
    destruct (c =? "]"); [| discriminate]. intros [= <- <-]. lia.
  - intros cs ms r. rewrite parseMembers_step.
    pose proof (skipWhitespace_length cs) as Hcs.
    destruct (startsWith "034" (skipWhitespace cs)) eqn:Es; [| discriminate].
    apply startsWith_tail in Es.
    destruct (scanString (tail (skipWhitespace cs))) as [[k r1]|] eqn:Ek;
      [| discriminate].
    apply scanString_length in Ek.
    pose proof (skipWhitespace_length r1) as Hr1.
    destruct (startsWith ":" (skipWhitespace r1)) eqn:Ec; [| discriminate].
    apply startsWith_tail in Ec.
    destruct (parseValue fuel (tail (skipWhitespace r1))) as [[v r3]|] eqn:Ev;
      [| discriminate].
    apply IHv in Ev. pose proof (skipWhitespace_length r3) as Hr3.
    destruct (skipWhitespace r3) as [|c r4]; [discriminate |].
    simpl in Hr3. destruct (c =? ",").
    { destruct (parseMembers fuel r4) as [[ms' r']|] eqn:E; [| discriminate].
      apply IHm in E. intros [= <- <-]. lia. }
    destruct (c =? "}"); [| discriminate]. intros [= <- <-]. lia.
Qed.

(** ** The fuel [parse] gives is enough

    Past twice the length of the text, more fuel does not change what the
    parser returns: a text that [parse] rejects is rejected for its
    syntax. *)
Lemma parse_fuel (fuel : nat) :
  forall fuel' : nat,
    (fuel <= fuel')%nat ->
    (forall cs, (2 * length cs + 1 <= fuel)%nat ->
                parseValue fuel' cs = parseValue fuel cs)
    /\ (forall cs, (2 * length cs + 2 <= fuel)%nat ->
                   parseElements fuel' cs = parseElements fuel cs)
    /\ (forall cs, (2 * length cs + 2 <= fuel)%nat ->
                   parseMembers fuel' cs = parseMembers fuel cs).
Proof.
  induction fuel as [|fuel IH]; intros fuel' Hle.
  { split_and!; intros cs Hcs; lia. }
  destruct fuel' as [|fuel']; [lia |].
  destruct (IH fuel' ltac:(lia)) as (IHv & IHe & IHm).
  destruct (parse_length fuel) as (Lv & _ & _).
  split_and!; intros cs Hfuel.
  - rewrite !parseValue_step.
    pose proof (skipWhitespace_length cs) as Hcs.
    destruct (skipWhitespace cs) as [|c t]; [done |]. simpl in Hcs.
    rewrite IHe, IHm by lia. done.
  - rewrite !parseElements_step. rewrite IHv by lia.
    destruct (parseValue fuel cs) as [[v r1]|] eqn:Ev; [| done].
    apply Lv in Ev. pose proof (skipWhitespace_length r1) as Hr1.
    destruct (skipWhitespace r1) as [|c r2]; [done |]. simpl in Hr1.
    rewrite IHe by lia. done.
  - rewrite !parseMembers_step.
    pose proof (skipWhitespace_length cs) as Hcs.
    destruct (startsWith "034" (skipWhitespace cs)) eqn:Es; [| done].
    apply startsWith_tail in Es.
    destruct (scanString (tail (skipWhitespace cs))) as [[k r1]|] eqn:Ek;
      [| done].
    apply scanString_length in Ek.
    pose proof (skipWhitespace_length r1) as Hr1.
    destruct (startsWith ":" (skipWhitespace r1)) eqn:Ec; [| done].
    apply startsWith_tail in Ec. rewrite IHv by lia.
    destruct (parseValue fuel (tail (skipWhitespace r1))) as [[v r3]|] eqn:Ev;
      [| done].
    apply Lv in Ev. pose proof (skipWhitespace_length r3) as Hr3.
    destruct (skipWhitespace r3) as [|c r4]; [done |]. simpl in Hr3.
    rewrite IHm by lia. done.
Qed.

Lemma parse_enough_fuel (s : string) (fuel : nat) :
  (2 * length (list_ascii_of_string s) + 2 <= fuel)%nat ->
  parseValue fuel (list_ascii_of_string s)
  = parseValue (2 * length (list_ascii_of_string s) + 2)
      (list_ascii_of_string s).
Proof.
  intros Hfuel.
  by apply (parse_fuel (2 * length (list_ascii_of_string s) + 2) fuel);
    [lia | lia].
Qed.

End JSONFacts.

(* ===================================================================== *)
(** * Facts about the provider *)
(* ===================================================================== *)

Module ShopFacts.

Import Shop.
Local Open Scope string_scope.

(** ** [includes] and the list operations of the toggles *)

Lemma includes_true (x : Z) (l : list Z) : includes x l = true <-> x ∈ l.
Proof.
  induction l as [|y l IH]; simpl.
  - split; [discriminate | by intros ?%elem_of_nil].
  - rewrite orb_true_iff, IH, elem_of_cons, Z.eqb_eq. naive_solver.
Qed.

Lemma includes_false (x : Z) (l : list Z) : includes x l = false <-> x ∉ l.
Proof.
  rewrite <- includes_true. destruct (includes x l); naive_solver.
Qed.

Lemma includes_removed (x : Z) (l : list Z) :
  includes x (filter (fun id => id <> x) l) = false.
Proof. apply includes_false. rewrite list_elem_of_filter. naive_solver. Qed.

Lemma includes_added (x : Z) (l : list Z) : includes x (l ++ [x]) = true.
Proof. apply includes_true. set_solver. Qed.

Lemma includes_removed_other (x j : Z) (l : list Z) :
  x <> j -> includes j (filter (fun id => id <> x) l) = includes j l.
Proof.
  intros Hne. apply eq_true_iff_eq.
  rewrite !includes_true, list_elem_of_filter. naive_solver.
Qed.

Lemma includes_added_other (x j : Z) (l : list Z) :
  x <> j -> includes j (l ++ [x]) = includes j l.
Proof.
  intros Hne. apply eq_true_iff_eq.
  rewrite !includes_true. set_solver.
Qed.

(** ** The two preference lists after one call *)

Lemma likedProducts_toggleLike (i : Z) (s : AppState) :
  likedProducts (toggleLike i s)
  = if includes i (likedProducts s)
    then filter (fun id => id <> i) (likedProducts s)
    else (likedProducts s ++ [i])%list.
Proof. unfold toggleLike. by destruct (includes i (likedProducts s)). Qed.

Lemma dislikedProducts_toggleLike (i : Z) (s : AppState) :
  dislikedProducts (toggleLike i s)
  = if includes i (likedProducts s)
    then dislikedProducts s
    else filter (fun id => id <> i) (dislikedProducts s).
Proof. unfold toggleLike. by destruct (includes i (likedProducts s)). Qed.

Lemma dislikedProducts_toggleDislike (i : Z) (s : AppState) :
  dislikedProducts (toggleDislike i s)
  = if includes i (dislikedProducts s)
    then filter (fun id => id <> i) (dislikedProducts s)
    else (dislikedProducts s ++ [i])%list.
Proof.
  unfold toggleDislike. by destruct (includes i (dislikedProducts s)).
Qed.

Lemma likedProducts_toggleDislike (i : Z) (s : AppState) :
  likedProducts (toggleDislike i s)
  = if includes i (dislikedProducts s)
    then likedProducts s
    else filter (fun id => id <> i) (likedProducts s).
Proof.
  unfold toggleDislike. by destruct (includes i (dislikedProducts s)).
Qed.

Lemma likedProducts_filterProducts (c : string) (s : AppState) :
  likedProducts (filterProducts c s) = likedProducts s.
Proof. unfold filterProducts. by destruct (String.eqb c "all"). Qed.

Lemma dislikedProducts_filterProducts (c : string) (s : AppState) :
  dislikedProducts (filterProducts c s) = dislikedProducts s.
Proof. unfold filterProducts. by destruct (String.eqb c "all"). Qed.

(** Rewriting with the equations above, then splitting on the tests. *)
Ltac toggle_cases :=
  rewrite ?likedProducts_toggleLike, ?dislikedProducts_toggleLike,
    ?likedProducts_toggleDislike, ?dislikedProducts_toggleDislike,
    ?likedProducts_filterProducts, ?dislikedProducts_filterProducts;
  repeat match goal with
    | |- context [includes ?i ?l] =>
        let E := fresh "E" in destruct (includes i l) eqn:E
    end.

(** ** What the cards read after one call *)

Lemma isLiked_toggleLike (i : Z) (s : AppState) :
  isLiked (toggleLike i s) i = negb (isLiked s i).
Proof.
  unfold isLiked. rewrite likedProducts_toggleLike.
  destruct (includes i (likedProducts s)) eqn:E;
    by rewrite ?includes_removed, ?includes_added.
Qed.

Lemma isDisliked_toggleLike (i : Z) (s : AppState) :
  isDisliked (toggleLike i s) i = isLiked s i && isDisliked s i.
Proof.
  unfold isLiked, isDisliked. rewrite dislikedProducts_toggleLike.
  destruct (includes i (likedProducts s)) eqn:E;
    by rewrite ?includes_removed.
Qed.

Lemma isDisliked_toggleDislike (i : Z) (s : AppState) :
  isDisliked (toggleDislike i s) i = negb (isDisliked s i).
Proof.
  unfold isDisliked. rewrite dislikedProducts_toggleDislike.
  destruct (includes i (dislikedProducts s)) eqn:E;
    by rewrite ?includes_removed, ?includes_added.
Qed.

Lemma isLiked_toggleDislike (i : Z) (s : AppState) :
  isLiked (toggleDislike i s) i = isDisliked s i && isLiked s i.
Proof.
  unfold isLiked, isDisliked. rewrite likedProducts_toggleDislike.
  destruct (includes i (dislikedProducts s)) eqn:E;
    by rewrite ?includes_removed.
Qed.

(** The two flags of an identifier, from its preference. *)
Lemma preference_flags (s : AppState) (i : Z) (p : Preference) :
  preference s i = Some p ->
  isLiked s i = match p with LIKED => true | _ => false end
  /\ isDisliked s i = match p with DISLIKED => true | _ => false end.
Proof.
  unfold preference.
  destruct (isLiked s i), (isDisliked s i), p; by intros [=].
Qed.

(** A call about one identifier does not move another one. *)
Lemma isLiked_toggleLike_other (i j : Z) (s : AppState) :
  i <> j -> isLiked (toggleLike i s) j = isLiked s j.
Proof.
  intros Hne. unfold isLiked. rewrite likedProducts_toggleLike.
  destruct (includes i (likedProducts s));
    by rewrite ?includes_removed_other, ?includes_added_other.
Qed.

Lemma isDisliked_toggleLike_other (i j : Z) (s : AppState) :
  i <> j -> isDisliked (toggleLike i s) j = isDisliked s j.
Proof.
  intros Hne. unfold isDisliked. rewrite dislikedProducts_toggleLike.
  destruct (includes i (likedProducts s));
    by rewrite ?includes_removed_other.
Qed.

Lemma isLiked_toggleDislike_other (i j : Z) (s : AppState) :
  i <> j -> isLiked (toggleDislike i s) j = isLiked s j.
Proof.
  intros Hne. unfold isLiked. rewrite likedProducts_toggleDislike.
  destruct (includes i (dislikedProducts s));
    by rewrite ?includes_removed_other.
Qed.

Lemma isDisliked_toggleDislike_other (i j : Z) (s : AppState) :
  i <> j -> isDisliked (toggleDislike i s) j = isDisliked s j.
Proof.
  intros Hne. unfold isDisliked. rewrite dislikedProducts_toggleDislike.
  destruct (includes i (dislikedProducts s));
    by rewrite ?includes_removed_other, ?includes_added_other.
Qed.

(** ** Mutual exclusion is an invariant of every call *)

Lemma exclusive_step (a : Action) (s : AppState) :
  exclusive s -> exclusive (step a s).
Proof.
  intros Hs i. specialize (Hs i). destruct a as [c|j|j|v p]; simpl.
  - by rewrite likedProducts_filterProducts, dislikedProducts_filterProducts.
  - toggle_cases; rewrite ?list_elem_of_filter, ?elem_of_app,
      ?list_elem_of_singleton; naive_solver.
  - toggle_cases; rewrite ?list_elem_of_filter, ?elem_of_app,
      ?list_elem_of_singleton; naive_solver.
  - done.
Qed.

Lemma exclusive_run (acts : list Action) (s : AppState) :
  exclusive s -> exclusive (run acts s).
Proof.
  revert s. induction acts as [|a acts IH]; intros s Hs; [done |].
  apply IH. by apply exclusive_step.
Qed.

(** ** No identifier is listed twice *)

Lemma NoDup_added (x : Z) (l : list Z) :
  includes x l = false -> NoDup l -> NoDup (l ++ [x]).
Proof.
  intros Hx%includes_false Hl. apply NoDup_app.
  split_and!; [done | | apply NoDup_singleton].
  intros y Hy ->%list_elem_of_singleton. done.
Qed.

Lemma NoDup_step (a : Action) (s : AppState) :
  NoDup (likedProducts s) -> NoDup (dislikedProducts s) ->
  NoDup (likedProducts (step a s)) /\ NoDup (dislikedProducts (step a s)).
Proof.
  intros Hl Hd. destruct a as [c|j|j|v p]; simpl.
  - by rewrite likedProducts_filterProducts, dislikedProducts_filterProducts.
  - toggle_cases; split; auto using NoDup_filter.
    by apply NoDup_added.
  - toggle_cases; split; auto using NoDup_filter.
    by apply NoDup_added.
  - done.
Qed.

Lemma NoDup_run (acts : list Action) (s : AppState) :
  NoDup (likedProducts s) -> NoDup (dislikedProducts s) ->
  NoDup (likedProducts (run acts s))
  /\ NoDup (dislikedProducts (run acts s)).
Proof.
  revert s. induction acts as [|a acts IH]; intros s Hl Hd; [done |].
  destruct (NoDup_step a s Hl Hd). by apply IH.
Qed.

(** ** Storage follows the two lists *)

Lemma app_dispatchAll (acts : list Action) (w : World) :
  app (dispatchAll acts w) = run acts (app w).
Proof.
  revert w. induction acts as [|a acts IH]; intros w; [done |].
  simpl. by rewrite IH.
Qed.

Lemma likedProducts_kept (a : Action) (s : AppState) :
  likedEffectRuns a s = false -> likedProducts (step a s) = likedProducts s.
Proof.
  destruct a as [c|j|j|v p]; simpl; intros Hr; try done.
  - apply likedProducts_filterProducts.
  - rewrite likedProducts_toggleDislike.
    by destruct (includes j (dislikedProducts s)).
Qed.

Lemma dislikedProducts_kept (a : Action) (s : AppState) :
  dislikedEffectRuns a s = false ->
  dislikedProducts (step a s) = dislikedProducts s.
Proof.
  destruct a as [c|j|j|v p]; simpl; intros Hr; try done.
  - apply dislikedProducts_filterProducts.
  - rewrite dislikedProducts_toggleLike.
    by destruct (includes j (likedProducts s)).
Qed.

Lemma dispatch_liked_key (a : Action) (w : World) :
  localStorage (dispatch a w) !! "likedProducts"
  = if likedEffectRuns a (app w)
    then Some (JSON.stringify (likedProducts (step a (app w))))
    else localStorage w !! "likedProducts".
Proof.
  unfold dispatch, persistLiked, persistDisliked; simpl.
  destruct (likedEffectRuns a (app w)), (dislikedEffectRuns a (app w));
    by simplify_map_eq.
Qed.

Lemma dispatch_disliked_key (a : Action) (w : World) :
  localStorage (dispatch a w) !! "dislikedProducts"
  = if dislikedEffectRuns a (app w)
    then Some (JSON.stringify (dislikedProducts (step a (app w))))
    else localStorage w !! "dislikedProducts".
Proof.
  unfold dispatch, persistLiked, persistDisliked; simpl.
  destruct (likedEffectRuns a (app w)), (dislikedEffectRuns a (app w));
    by simplify_map_eq.
Qed.

Lemma dispatch_other_key (a : Action) (w : World) (k : string) :
  k <> "likedProducts" -> k <> "dislikedProducts" ->
  localStorage (dispatch a w) !! k = localStorage w !! k.
Proof.
  intros Hl Hd. unfold dispatch, persistLiked, persistDisliked; simpl.
  destruct (likedEffectRuns a (app w)), (dislikedEffectRuns a (app w));
    by simplify_map_eq.
Qed.

Lemma synced_dispatch (a : Action) (w : World) :
  synced w -> synced (dispatch a w).
Proof.
  intros [Hl Hd]. split.
  - rewrite dispatch_liked_key.
    destruct (likedEffectRuns a (app w)) eqn:E; [done |].
    simpl. by rewrite likedProducts_kept.
  - rewrite dispatch_disliked_key.
    destruct (dislikedEffectRuns a (app w)) eqn:E; [done |].
    simpl. by rewrite dislikedProducts_kept.
Qed.

Lemma synced_dispatchAll (acts : list Action) (w : World) :
  synced w -> synced (dispatchAll acts w).
Proof.
  revert w. induction acts as [|a acts IH]; intros w Hw; [done |].
  apply IH. by apply synced_dispatch.
Qed.

(** ** Construction *)

Lemma initialItems_stringify (ids : list Z) :
  initialItems (Some (JSON.stringify ids))
  = Some (JSON.JArray (map JSON.JInt ids)).
Proof. simpl. apply JSONFacts.parse_stringify. Qed.

Lemma restores_synced (w : World) :
  synced w ->
  restores (localStorage w)
    (likedProducts (app w)) (dislikedProducts (app w)).
Proof.
  intros [Hl Hd]. unfold restores.
  by rewrite Hl, Hd, !initialItems_stringify.
Qed.

Lemma restores_empty : restores ∅ [] [].
Proof. done. Qed.

Lemma mount_restores (st : gmap string string) (l d : list Z) :
  restores st l d ->
  mount st
  = Mounted {| app := fetchDataStart (initialState l d);
               localStorage :=
                 persistDisliked (fetchDataStart (initialState l d))
                   (persistLiked (fetchDataStart (initialState l d)) st) |}.
Proof.
  intros [Hl Hd]. unfold mount. rewrite Hl, Hd.
  by rewrite !JSONFacts.asIds_ints.
Qed.

Lemma mount_synced (st : gmap string string) (w : World) :
  mount st = Mounted w -> synced w.
Proof.
  unfold mount. intros Hm.
  destruct (initialItems (st !! "likedProducts")) as [jl|]; [|done].
  destruct (initialItems (st !! "dislikedProducts")) as [jd|]; [|done].
  destruct (JSON.asIds jl) as [l|]; [|done].
  destruct (JSON.asIds jd) as [d|]; [|done].
  injection Hm as <-. unfold synced, persistLiked, persistDisliked; simpl.
  by simplify_map_eq.
Qed.

Lemma visit_synced (acts : list Action) (st : gmap string string)
    (w : World) :
  visit acts st = Mounted w -> synced w.
Proof.
  unfold visit. destruct (mount st) as [| |w0] eqn:Em; try done.
  intros [= <-]. apply synced_dispatchAll. by eapply mount_synced.
Qed.

(** A provider constructed on a synced storage starts with the lists
    that were written, and leaves the storage as it found it. *)
Lemma mount_storage_synced (w : World) :
  synced w ->
  mount (localStorage w)
  = Mounted {| app := fetchDataStart
                        (initialState (likedProducts (app w))
                                      (dislikedProducts (app w)));
               localStorage := localStorage w |}.
Proof.
  intros Hw. rewrite (mount_restores _ _ _ (restores_synced w Hw)).
  destruct Hw as [Hl Hd]. do 2 f_equal.
  unfold persistLiked, persistDisliked; simpl.
  rewrite (insert_id _ _ _ Hl). by rewrite (insert_id _ _ _ Hd).
Qed.

(** ** Visits that start from lists without a common identifier *)

Lemma visit_restores (acts : list Action) (st : gmap string string)
    (l d : list Z) :
  restores st l d ->
  (forall i, ~ (i ∈ l /\ i ∈ d)) ->
  exists w, visit acts st = Mounted w /\ synced w /\ exclusive (app w).
Proof.
  intros Hst Hex. eexists. unfold visit.
  rewrite (mount_restores _ _ _ Hst). split; [reflexivity |]. split.
  - apply synced_dispatchAll. eapply mount_synced, mount_restores, Hst.
  - rewrite app_dispatchAll. by apply exclusive_run.
Qed.

Lemma visits_restores (history : list (list Action)) :
  forall (st : gmap string string) (l d : list Z),
    restores st l d ->
    (forall i, ~ (i ∈ l /\ i ∈ d)) ->
    exists st' l' d',
      visits history st = Some st' /\ restores st' l' d'
      /\ (forall i, ~ (i ∈ l' /\ i ∈ d')).
Proof.
  induction history as [|acts later IH]; intros st l d Hst Hex.
  - by exists st, l, d.
  - destruct (visit_restores acts st l d Hst Hex) as (w & Hv & Hw & Hx).
    simpl. rewrite Hv. eapply IH; [by apply restores_synced | done].
Qed.

(** ** The filter *)

Lemma filteredProducts_filterProducts (c : string) (s : AppState) :
  filteredProducts (filterProducts c s)
  = if String.eqb c "all" then products s
    else filter (fun p => Product.category p = c) (products s).
Proof. unfold filterProducts. by destruct (String.eqb c "all"). Qed.

(** Among the sublists whose elements all satisfy a test, the filtered
    list is the largest. *)
Lemma sublist_filter_greatest {A : Type} (P : A -> Prop)
    `{!forall x, Decision (P x)} (l k : list A) :
  l `sublist_of` k -> Forall P l -> l `sublist_of` filter P k.
Proof.
  induction 1 as [|x l k Hlk IH|x l k Hlk IH]; intros Hall.
  - constructor.
  - apply Forall_cons in Hall as [Hx Hall].
    rewrite filter_cons_True by done. constructor. by apply IH.
  - rewrite filter_cons. destruct (decide (P x)); [constructor |]; auto.
Qed.

(** ** The loader *)





Lemma loaded_succeeded (r : Requests) (s : AppState)
    (ps : list Product.t) (cs : list string) :
  productsRequest r = Responded true (BodyJson ps) ->
  categoriesRequest r = Responded true (BodyJson cs) ->
  loaded r s
  = setLoading false
      (setFilteredProducts ps
         (setCategories cs
            (setProducts ps (setError None (setLoading true s))))).
Proof. destruct r as [pr cr first]; simpl. by intros -> ->. Qed.

(** ** A stored text that is not JSON *)

Lemma mount_throws_liked (st : gmap string string) (saved : string) :
  st !! "likedProducts" = Some saved ->
  truthy saved = true ->
  JSON.parse saved = None ->
  mount st = MountThrows.
Proof.
  intros Hst Ht Hp. unfold mount, initialItems. by rewrite Hst, Ht, Hp.
Qed.

Lemma mount_throws_disliked (st : gmap string string) (saved : string) :
  st !! "dislikedProducts" = Some saved ->
  truthy saved = true ->
  JSON.parse saved = None ->
  mount st = MountThrows.
Proof.
  intros Hst Ht Hp. unfold mount.
  destruct (initialItems (st !! "likedProducts")); [| done].
  unfold initialItems. by rewrite Hst, Ht, Hp.
Qed.

(** ** The scenario of a first visit

    The catalog loads; filtering by ["a"] shows the first product; liking
    it lists it among the favorites; disliking it removes it from them;
    after a reload it is still disliked. *)
Example first_visit :
  exists w0 w5,
    mount ∅ = Mounted w0
    /\ let w1 := fetchSettled Sample.served w0 in
       let w2 := dispatch (FilterProducts "a") w1 in
       let w3 := dispatch (ToggleLike 1) w2 in
       let w4 := dispatch (ToggleDislike 1) w3 in
       App (app w0) = LoadingSpinner
       /\ App (app w2) = Pages "home" [Sample.product 1 "a"]
       /\ favoriteProducts (app w3) = [Sample.product 1 "a"]
       /\ favoriteProducts (app w4) = []
       /\ preference (app w4) 1 = Some DISLIKED
       /\ mount (localStorage w4) = Mounted w5
       /\ preference (app w5) 1 = Some DISLIKED.
Proof.
  eexists _, _. split; [reflexivity |]. cbv zeta.
  split_and!; reflexivity.
Qed.

End ShopFacts.

(* ===================================================================== *)
(** * Properties of the store *)
(* ===================================================================== *)

Import Shop ShopFacts.
Local Open Scope string_scope.

(** C1. An identifier is never in both the liked and the disliked list:
    whatever the earlier visits were, starting from an empty storage, and
    whatever is called during the current visit, whose provider is
    constructed on the storage the earlier visits persisted, the two lists
    of the provider have no identifier in common; any sequence of calls
    keeps two lists without a common identifier that way; and for an
    identifier that is not liked, [toggleDislike] followed by [toggleLike]
    leaves it LIKED and absent from the disliked list. *)
Theorem liked_disliked_exclusive :
  (forall (history : list (list Action)) (acts : list Action),
      exists st w,
        visits history ∅ = Some st /\ visit acts st = Mounted w
        /\ forall i,
            ~ (i ∈ likedProducts (app w) /\ i ∈ dislikedProducts (app w)))
  /\ (forall (s : AppState) (acts : list Action),
        (forall i, ~ (i ∈ likedProducts s /\ i ∈ dislikedProducts s)) ->
        forall i,
          ~ (i ∈ likedProducts (run acts s)
             /\ i ∈ dislikedProducts (run acts s)))
  /\ (forall (s : AppState) (i : Z),
        isLiked s i = false ->
        let s' := toggleLike i (toggleDislike i s) in
        preference s' i = Some LIKED
        /\ i ∈ likedProducts s' /\ i ∉ dislikedProducts s').
Proof.
  split_and!.
  - intros history acts.
    destruct (visits_restores history ∅ [] [] restores_empty)
      as (st & l & d & Hv & Hst & Hex).
    { intros i [Hi _]. by apply elem_of_nil in Hi. }
    destruct (visit_restores acts st l d Hst Hex) as (w & Hw & _ & Hx).
    by exists st, w.
  - intros s acts Hs. by apply exclusive_run.
  - intros s i Hi. unfold isLiked in Hi.
    assert (Hl : isLiked (toggleLike i (toggleDislike i s)) i = true
                 /\ isDisliked (toggleLike i (toggleDislike i s)) i = false).
    { unfold isLiked, isDisliked.
      rewrite likedProducts_toggleLike, dislikedProducts_toggleLike,
        likedProducts_toggleDislike, dislikedProducts_toggleDislike.
      destruct (includes i (dislikedProducts s)) eqn:Ed.
      - by rewrite Hi, includes_added, includes_removed.
      - by rewrite includes_removed, includes_added, includes_removed. }
    destruct Hl as [Hl Hd]. simpl. unfold preference. rewrite Hl, Hd.
    split_and!; [done | by apply includes_true | by apply includes_false].
Qed.

Lemma liked_disliked_exclusive_witness :
  isLiked (initialState [3] [5]) 5 = false
  /\ (forall i, ~ (i ∈ likedProducts (initialState [] [])
                  /\ i ∈ dislikedProducts (initialState [] [])))
  /\ preference (toggleLike 5 (toggleDislike 5 (initialState [3] [5]))) 5
     = Some LIKED.
Proof.
  split; [reflexivity |]. split.
  - apply (proj1 (proj2 liked_disliked_exclusive) (initialState [] []) []).
    intros i [Hi _]. simpl in Hi. by apply elem_of_nil in Hi.
  - apply (proj2 (proj2 liked_disliked_exclusive) (initialState [3] [5]) 5).
    reflexivity.
Defined.

(** C2. The preference of an identifier follows the transition table of
    the specification: from a preference NEUTRAL, LIKED or DISLIKED,
    [toggleLike] on the identifier leads to what the table gives for
    [toggleLike], [toggleDislike] on it to what the table gives for
    [toggleDislike], and no other call moves it: neither a toggle on
    another identifier, nor a filter, nor a navigation. *)
Theorem preference_transition_table (s : AppState) (i : Z) (p : Preference) :
  preference s i = Some p ->
  preference (toggleLike i s) i = Some (Spec.afterLike p)
  /\ preference (toggleDislike i s) i = Some (Spec.afterDislike p)
  /\ (forall a : Action,
        a <> ToggleLike i -> a <> ToggleDislike i ->
        preference (step a s) i = Some p).
Proof.
  intros Hp. destruct (preference_flags s i p Hp) as [Hl Hd]. split_and!.
  - unfold preference.
    rewrite isLiked_toggleLike, isDisliked_toggleLike, Hl, Hd.
    by destruct p.
  - unfold preference.
    rewrite isLiked_toggleDislike, isDisliked_toggleDislike, Hl, Hd.
    by destruct p.
  - intros a Hal Had. rewrite <- Hp. unfold preference.
    destruct a as [c|j|j|v q]; simpl.
    + unfold isLiked, isDisliked.
      by rewrite likedProducts_filterProducts,
        dislikedProducts_filterProducts.
    + assert (j <> i) by congruence.
      by rewrite isLiked_toggleLike_other, isDisliked_toggleLike_other.
    + assert (j <> i) by congruence.
      by rewrite isLiked_toggleDislike_other,
        isDisliked_toggleDislike_other.
    + done.
Qed.

Lemma preference_transition_table_witness :
  preference (initialState [7] [2]) 2 = Some DISLIKED
  /\ preference (toggleLike 2 (initialState [7] [2])) 2 = Some LIKED
  /\ preference (toggleDislike 2 (initialState [7] [2])) 2 = Some NEUTRAL.
Proof.
  split; [reflexivity |].
  destruct (preference_transition_table (initialState [7] [2]) 2 DISLIKED)
    as (Hl & Hd & _); [reflexivity |].
  exact (conj Hl Hd).
Defined.

(** C3. The part of the claim about an absent value holds: the initialiser
    returns the empty array.  On a stored text that does not parse, for
    example an unfinished array, the initialiser throws and the provider is
    not constructed. *)
Theorem unparsable_storage_throws :
  initialItems None = Some (JSON.JArray [])
  /\ JSON.parse "[1,2" = None
  /\ mount (<["likedProducts" := "[1,2"]> ∅) = MountThrows
  /\ mount (<["dislikedProducts" := "not json"]> ∅) = MountThrows.
Proof. split_and!; reflexivity. Qed.

(** C4, as the claim states it, fails: two calls of [toggleLike] do not
    always give back the preference they started from. *)
Lemma double_toggleLike_not_identity :
  ~ (forall (s : AppState) (i : Z) (p : Preference),
        preference s i = Some p ->
        preference (toggleLike i (toggleLike i s)) i = Some p).
Proof.
  intros H. specialize (H (initialState [] [1]) 1 DISLIKED eq_refl).
  vm_compute in H. discriminate H.
Qed.

(** C4, amended. Two calls of [toggleLike] on an identifier give back the
    preference they started from when it was NEUTRAL or LIKED; when it was
    DISLIKED they end in NEUTRAL. *)
Theorem double_toggleLike (s : AppState) (i : Z) (p : Preference) :
  preference s i = Some p ->
  preference (toggleLike i (toggleLike i s)) i
  = Some (match p with
          | NEUTRAL => NEUTRAL
          | LIKED => LIKED
          | DISLIKED => NEUTRAL
          end).
Proof.
  intros Hp. destruct (preference_flags s i p Hp) as [Hl Hd].
  unfold preference.
  rewrite !isLiked_toggleLike, !isDisliked_toggleLike, !isLiked_toggleLike.
  rewrite Hl, Hd. by destruct p.
Qed.

Lemma double_toggleLike_witness :
  preference (initialState [4] []) 4 = Some LIKED
  /\ preference (toggleLike 4 (toggleLike 4 (initialState [4] []))) 4
     = Some LIKED.
Proof.
  split; [reflexivity |].
  apply (double_toggleLike (initialState [4] []) 4 LIKED). reflexivity.
Defined.

(** C5. With the sentinel ["all"] the filter shows the catalog unchanged;
    with any other category it shows exactly the products of that category,
    in the order of the catalog: a product is shown when and only when it
    is in the catalog with that category, the shown list is a sublist of
    the catalog, and every sublist of the catalog made of products of that
    category is a sublist of the shown list. *)
Theorem filterProducts_shows (s : AppState) (f : string) :
  filteredProducts (filterProducts "all" s) = products s
  /\ (f <> "all" ->
      let shown := filteredProducts (filterProducts f s) in
      (forall p, p ∈ shown <-> p ∈ products s /\ Product.category p = f)
      /\ shown `sublist_of` products s
      /\ (forall l,
            l `sublist_of` products s ->
            Forall (fun p => Product.category p = f) l ->
            l `sublist_of` shown)).
Proof.
  split; [reflexivity |]. intros Hf shown. subst shown.
  rewrite filteredProducts_filterProducts.
  apply String.eqb_neq in Hf. rewrite Hf. split_and!.
  - intros p. rewrite list_elem_of_filter. naive_solver.
  - apply sublist_filter.
  - intros l Hl Hall. by apply sublist_filter_greatest.
Qed.

Lemma filterProducts_shows_witness :
  "a" <> "all"
  /\ filteredProducts (filterProducts "a" Sample.browsing)
     `sublist_of` products Sample.browsing.
Proof.
  split; [discriminate |].
  refine (proj1 (proj2 (proj2 (filterProducts_shows Sample.browsing "a") _))).
  discriminate.
Defined.




(** C7. A call that changes the liked list, or the disliked list, leaves
    under the key of that list the serialisation of the whole new list,
    whatever the key held before; and a provider constructed on the storage
    a visit leaves starts with the liked and disliked lists the visit ended
    with. *)
Theorem persistence_round_trip :
  (forall (a : Action) (w : World),
      let w' := dispatch a w in
      (likedProducts (app w') <> likedProducts (app w) ->
       localStorage w' !! "likedProducts"
       = Some (JSON.stringify (likedProducts (app w'))))
      /\ (dislikedProducts (app w') <> dislikedProducts (app w) ->
          localStorage w' !! "dislikedProducts"
          = Some (JSON.stringify (dislikedProducts (app w')))))
  /\ (forall (st : gmap string string) (acts : list Action) (w : World),
        visit acts st = Mounted w ->
        localStorage w !! "likedProducts"
        = Some (JSON.stringify (likedProducts (app w)))
        /\ localStorage w !! "dislikedProducts"
           = Some (JSON.stringify (dislikedProducts (app w)))
        /\ exists w',
            mount (localStorage w) = Mounted w'
            /\ likedProducts (app w') = likedProducts (app w)
            /\ dislikedProducts (app w') = dislikedProducts (app w)).
Proof.
  split.
  - intros a w w'. subst w'. split; intros Hchange.
    + rewrite dispatch_liked_key.
      destruct (likedEffectRuns a (app w)) eqn:E; [done |].
      exfalso. apply Hchange. simpl. by apply likedProducts_kept.
    + rewrite dispatch_disliked_key.
      destruct (dislikedEffectRuns a (app w)) eqn:E; [done |].
      exfalso. apply Hchange. simpl. by apply dislikedProducts_kept.
  - intros st acts w Hv. pose proof (visit_synced acts st w Hv) as Hw.
    destruct Hw as [Hl Hd]. split_and!; try done.
    rewrite (mount_storage_synced w (conj Hl Hd)). by eexists.
Qed.

Lemma persistence_round_trip_witness :
  exists w w',
    visit [ToggleLike 1; ToggleLike 2; ToggleDislike 1] ∅ = Mounted w
    /\ mount (localStorage w) = Mounted w'
    /\ likedProducts (app w') = [2]
    /\ dislikedProducts (app w') = [1].
Proof.
  set (acts := [ToggleLike 1; ToggleLike 2; ToggleDislike 1]).
  set (s0 := fetchDataStart (initialState [] [])).
  set (w := dispatchAll acts
              {| app := s0;
                 localStorage := persistDisliked s0 (persistLiked s0 ∅) |}).
  assert (Hv : visit acts ∅ = Mounted w) by reflexivity.
  destruct (proj2 persistence_round_trip ∅ acts w Hv)
    as (_ & _ & w' & Hm & Hl & Hd).
  exists w, w'. split; [exact Hv |]. split; [exact Hm |].
  split; [rewrite Hl | rewrite Hd]; reflexivity.
Defined.

(** C8, as the claim states it, fails: a navigation to a view other than
    the detail view does not keep the product that was selected. *)
Lemma navigateTo_drops_selection :
  ~ (forall (view : string) (s : AppState),
        view <> "detail" ->
        selectedProduct (navigateTo view None s) = selectedProduct s).
Proof.
  intros H.
  assert (Hhome : "home" <> "detail") by discriminate.
  specialize (H "home"
                (navigateTo "detail" (Some (Sample.product 1 "a"))
                   Sample.browsing) Hhome).
  discriminate H.
Qed.

(** C8, amended. [navigateTo] sets the view to the one it is given and the
    selected product to the one it is given, to none when none is given,
    whatever the view; no other cell changes. *)
Theorem navigateTo_sets_view_and_selection
    (view : string) (product : option Product.t) (s : AppState) :
  let s' := navigateTo view product s in
  currentView s' = view
  /\ selectedProduct s' = product
  /\ products s' = products s
  /\ categories s' = categories s
  /\ filteredProducts s' = filteredProducts s
  /\ currentFilter s' = currentFilter s
  /\ likedProducts s' = likedProducts s
  /\ dislikedProducts s' = dislikedProducts s
  /\ loading s' = loading s
  /\ error s' = error s.
Proof. by split_and!. Qed.

(** C9. A toggle on one identifier leaves every other identifier where it
    was, in the liked list, in the disliked list and so in its preference,
    and leaves the catalog, the categories, the filtered list, the filter,
    the view and the selected product as they were. *)
Theorem toggle_frame (s : AppState) (i j : Z) :
  i <> j ->
  forall s' : AppState,
    s' = toggleLike i s \/ s' = toggleDislike i s ->
    isLiked s' j = isLiked s j
    /\ isDisliked s' j = isDisliked s j
    /\ preference s' j = preference s j
    /\ products s' = products s
    /\ categories s' = categories s
    /\ filteredProducts s' = filteredProducts s
    /\ currentFilter s' = currentFilter s
    /\ currentView s' = currentView s
    /\ selectedProduct s' = selectedProduct s.
Proof.
  intros Hne s' [-> | ->].
  - unfold preference.
    rewrite isLiked_toggleLike_other, isDisliked_toggleLike_other by done.
    unfold toggleLike. by destruct (includes i (likedProducts s)).
  - unfold preference.
    rewrite isLiked_toggleDislike_other, isDisliked_toggleDislike_other
      by done.
    unfold toggleDislike. by destruct (includes i (dislikedProducts s)).
Qed.

Lemma toggle_frame_witness :
  preference (toggleLike 1 (initialState [1; 2] [3])) 2
  = preference (initialState [1; 2] [3]) 2
  /\ preference (toggleDislike 1 (initialState [1; 2] [3])) 3
     = preference (initialState [1; 2] [3]) 3.
Proof.
  split.
  - refine (proj1 (proj2 (proj2
      (toggle_frame (initialState [1; 2] [3]) 1 2 _ _ (or_introl eq_refl))))).
    discriminate.
  - refine (proj1 (proj2 (proj2
      (toggle_frame (initialState [1; 2] [3]) 1 3 _ _ (or_intror eq_refl))))).
    discriminate.
Defined.

(** C10. Two lists without a repeated identifier stay so after every
    sequence of calls, and then the length of each list is the number of
    distinct identifiers in it. *)
Theorem no_duplicate_identifiers (s : AppState) (acts : list Action) :
  NoDup (likedProducts s) ->
  NoDup (dislikedProducts s) ->
  let s' := run acts s in
  NoDup (likedProducts s')
  /\ NoDup (dislikedProducts s')
  /\ length (likedProducts s')
     = size (list_to_set (likedProducts s') : gset Z)
  /\ length (dislikedProducts s')
     = size (list_to_set (dislikedProducts s') : gset Z).
Proof.
  intros Hl Hd s'. destruct (NoDup_run acts s Hl Hd) as [Hl' Hd'].
  split_and!; try done; symmetry; by apply size_list_to_set.
Qed.

Lemma no_duplicate_identifiers_witness :
  NoDup (likedProducts
           (run [ToggleLike 1; ToggleLike 2; ToggleDislike 1; ToggleLike 1]
              (initialState [] []))).
Proof.
  refine (proj1 (no_duplicate_identifiers (initialState [] [])
            [ToggleLike 1; ToggleLike 2; ToggleDislike 1; ToggleLike 1]
            _ _)); simpl; apply NoDup_nil_2.
Defined.

(* ===================================================================== *)
(** * Further properties of the provider and of its consumers *)
(* ===================================================================== *)

Module ViewFacts.

Import Shop ShopFacts Views.
Local Open Scope string_scope.

(** ** Cells no call of the context writes *)

Lemma step_load_cells (a : Action) (s : AppState) :
  products (step a s) = products s
  /\ categories (step a s) = categories s
  /\ loading (step a s) = loading s
  /\ error (step a s) = error s.
Proof.
  destruct a as [c|j|j|v p]; simpl.
  - unfold filterProducts. by destruct (String.eqb c "all").
  - unfold toggleLike. by destruct (includes j (likedProducts s)).
  - unfold toggleDislike. by destruct (includes j (dislikedProducts s)).
  - done.
Qed.

Lemma run_load_cells (acts : list Action) (s : AppState) :
  products (run acts s) = products s
  /\ categories (run acts s) = categories s
  /\ loading (run acts s) = loading s
  /\ error (run acts s) = error s.
Proof.
  revert s. induction acts as [|a acts IH]; intros s; [done |].
  simpl. destruct (IH (step a s)) as (-> & -> & -> & ->).
  apply step_load_cells.
Qed.

(** ** The two ways [fetchData] ends *)

Lemma loaded_cases (r : Requests) (s : AppState) :
  (exists ps cs,
      productsRequest r = Responded true (BodyJson ps)
      /\ categoriesRequest r = Responded true (BodyJson cs)
      /\ loaded r s = succeeded ps cs s)
  \/ (exists message, loaded r s = failed message s).
Proof.
  destruct r as [[m|ok [mb|ps]] [m'|ok' [mb'|cs]] first];
    try (right; destruct first; eexists; reflexivity);
    try (right; destruct ok; eexists; reflexivity);
    try (right; destruct ok'; eexists; reflexivity);
    try (right; destruct ok, ok'; eexists; reflexivity).
  destruct ok, ok'; try (right; eexists; reflexivity).
  left. by exists ps, cs.
Qed.

(** ** The filtered list follows the filter *)

Lemma filterFollowed_step (a : Action) (s : AppState) :
  filterFollowed s -> filterFollowed (step a s).
Proof.
  unfold filterFollowed. intros Hs. destruct a as [c|j|j|v p]; simpl.
  - unfold filterProducts, shownFor.
    by destruct (String.eqb c "all") eqn:E; simpl; rewrite E.
  - unfold toggleLike. by destruct (includes j (likedProducts s)).
  - unfold toggleDislike. by destruct (includes j (dislikedProducts s)).
  - done.
Qed.

Lemma filterFollowed_run (acts : list Action) (s : AppState) :
  filterFollowed s -> filterFollowed (run acts s).
Proof.
  revert s. induction acts as [|a acts IH]; intros s Hs; [done |].
  apply IH. by apply filterFollowed_step.
Qed.

Lemma filterFollowed_afterLoad (r : Requests) (l d : list Z) :
  filterFollowed (afterLoad r l d).
Proof.
  unfold afterLoad.
  destruct (loaded_cases r (fetchDataStart (initialState l d)))
    as [(ps & cs & _ & _ & ->) | (m & ->)]; reflexivity.
Qed.

(** ** Category counts *)

Lemma getCategoryCount_cons (c : string) (p : Product.t)
    (ps : list Product.t) :
  length (filter (fun q => Product.category q = c) (p :: ps))
  = ((if decide (Product.category p = c) then 1 else 0)
     + length (filter (fun q => Product.category q = c) ps))%nat.
Proof. rewrite filter_cons. by destruct (decide (Product.category p = c)). Qed.

(** In a list of categories without repetition, a category of the list is
    counted once. *)
Lemma sum_indicator (x : string) (cs : list string) :
  NoDup cs -> x ∈ cs ->
  sum_list (map (fun c => if decide (x = c) then 1%nat else 0%nat) cs)
  = 1%nat.
Proof.
  induction 1 as [|c cs Hc Hcs IH]; [by intros ?%elem_of_nil |].
  intros Hx. simpl. destruct (decide (x = c)) as [-> | Hne].
  - f_equal. clear IH Hx. induction cs as [|c' cs IH]; [done |].
    apply not_elem_of_cons in Hc as [Hne Hc]. apply NoDup_cons in Hcs as [_ Hcs].
    simpl. destruct (decide (c = c')); [done |]. by apply IH.
  - apply elem_of_cons in Hx as [-> | Hx]; [done |]. by apply IH.
Qed.

Lemma sum_counts (cs : list string) (ps : list Product.t) :
  NoDup cs ->
  (forall p, p ∈ ps -> Product.category p ∈ cs) ->
  sum_list
    (map (fun c => length (filter (fun q => Product.category q = c) ps)) cs)
  = length ps.
Proof.
  intros Hcs. induction ps as [|p ps IH]; intros Hin.
  - simpl. clear Hcs Hin. induction cs as [|c cs IH]; [done |]. by simpl.
  - pose proof (sum_indicator (Product.category p) cs Hcs
                  (Hin p ltac:(by left))) as H1.
    specialize (IH (fun q Hq => Hin q ltac:(by right))).
    simpl length at 2. rewrite <- IH, <- Nat.add_1_l, <- H1.
    clear IH Hin Hcs H1. induction cs as [|c cs IH]; [done |].
    change (sum_list (map ?f (c :: cs))) with (f c + sum_list (map f cs))%nat.
    rewrite IH, getCategoryCount_cons. lia.
Qed.

(** ** The flags of any identifier after a toggle *)

Lemma isLiked_step (a : Action) (k : Z) (s : AppState) :
  isLiked (step a s) k
  = match a with
    | ToggleLike i =>
        if decide (k = i) then negb (isLiked s i) else isLiked s k
    | ToggleDislike i =>
        if decide (k = i) then isDisliked s i && isLiked s i
        else isLiked s k
    | _ => isLiked s k
    end.
Proof.
  destruct a as [c|i|i|v p]; simpl.
  - unfold isLiked. by rewrite likedProducts_filterProducts.
  - destruct (decide (k = i)) as [-> | Hne];
      [apply isLiked_toggleLike | by apply isLiked_toggleLike_other].
  - destruct (decide (k = i)) as [-> | Hne];
      [apply isLiked_toggleDislike | by apply isLiked_toggleDislike_other].
  - done.
Qed.

Lemma isDisliked_step (a : Action) (k : Z) (s : AppState) :
  isDisliked (step a s) k
  = match a with
    | ToggleLike i =>
        if decide (k = i) then isLiked s i && isDisliked s i
        else isDisliked s k
    | ToggleDislike i =>
        if decide (k = i) then negb (isDisliked s i) else isDisliked s k
    | _ => isDisliked s k
    end.
Proof.
  destruct a as [c|i|i|v p]; simpl.
  - unfold isDisliked. by rewrite dislikedProducts_filterProducts.
  - destruct (decide (k = i)) as [-> | Hne];
      [apply isDisliked_toggleLike | by apply isDisliked_toggleLike_other].
  - destruct (decide (k = i)) as [-> | Hne];
      [apply isDisliked_toggleDislike
      | by apply isDisliked_toggleDislike_other].
  - done.
Qed.

(** ** Lengths *)

Lemma filter_absent (i : Z) (l : list Z) :
  i ∉ l -> filter (fun id => id <> i) l = l.
Proof.
  induction l as [|x l IH]; [done |].
  intros [Hne Hl]%not_elem_of_cons.
  rewrite filter_cons_True by congruence. by rewrite IH.
Qed.

Lemma length_removed (i : Z) (l : list Z) :
  NoDup l -> i ∈ l ->
  S (length (filter (fun id => id <> i) l)) = length l.
Proof.
  induction 1 as [|x l Hx Hl IH]; [by intros ?%elem_of_nil |].
  intros [-> | Hi]%elem_of_cons.
  - rewrite filter_cons_False by (by intros ?).
    by rewrite filter_absent.
  - rewrite filter_cons_True by (intros ->; done).
    simpl. by rewrite IH.
Qed.

(** ** Favorites *)

Lemma favoriteProducts_elem (s : AppState) (p : Product.t) :
  p ∈ favoriteProducts s
  <-> p ∈ products s /\ isLiked s (Product.id p) = true.
Proof. unfold favoriteProducts. rewrite list_elem_of_filter. naive_solver. Qed.

Lemma favoriteProducts_ids (s : AppState) :
  NoDup (map Product.id (products s)) ->
  NoDup (map Product.id (favoriteProducts s))
  /\ forall i, i ∈ map Product.id (favoriteProducts s)
               <-> i ∈ likedProducts s /\ i ∈ map Product.id (products s).
Proof.
  intros Hids. split.
  - eapply sublist_NoDup; [exact Hids |].
    change (Product.id <$> favoriteProducts s
            `sublist_of` Product.id <$> products s).
    apply fmap_sublist, sublist_filter.
  - intros i. change (map Product.id ?l) with (Product.id <$> l).
    rewrite !list_elem_of_fmap. split.
    + intros (p & -> & [Hp Hl]%favoriteProducts_elem).
      split; [by apply includes_true | by exists p].
    + intros (Hl & p & -> & Hp). exists p. split; [done |].
      apply favoriteProducts_elem. split; [done | by apply includes_true].
Qed.

(** ** Keys of the storage *)

Lemma initialItems_None (saved : option string) :
  initialItems saved = None
  <-> exists text, saved = Some text /\ text <> "" /\ JSON.parse text = None.
Proof.
  unfold initialItems. destruct saved as [text|]; [| naive_solver].
  destruct text as [|c text]; simpl; [naive_solver |].
  split; [intros H; eexists; split_and!; done |].
  by intros (? & [= <-] & _ & H).
Qed.

Lemma mount_other_key (st : gmap string string) (w : World) (k : string) :
  mount st = Mounted w ->
  k <> "likedProducts" -> k <> "dislikedProducts" ->
  localStorage w !! k = st !! k.
Proof.
  unfold mount. intros Hm Hl Hd.
  destruct (initialItems (st !! "likedProducts")) as [jl|]; [| done].
  destruct (initialItems (st !! "dislikedProducts")) as [jd|]; [| done].
  destruct (JSON.asIds jl) as [l|]; [| done].
  destruct (JSON.asIds jd) as [d|]; [| done].
  injection Hm as <-. unfold persistLiked, persistDisliked; simpl.
  by simplify_map_eq.
Qed.

Lemma dispatchAll_other_key (acts : list Action) (w : World) (k : string) :
  k <> "likedProducts" -> k <> "dislikedProducts" ->
  localStorage (dispatchAll acts w) !! k = localStorage w !! k.
Proof.
  intros Hl Hd. revert w. induction acts as [|a acts IH]; intros w; [done |].
  simpl. rewrite IH. by apply dispatch_other_key.
Qed.

(** ** A property of the two lists kept by every call is kept by every
    visit *)

Lemma run_lists (P : list Z -> list Z -> Prop) :
  (forall a s,
      P (likedProducts s) (dislikedProducts s) ->
      P (likedProducts (step a s)) (dislikedProducts (step a s))) ->
  forall acts s,
    P (likedProducts s) (dislikedProducts s) ->
    P (likedProducts (run acts s)) (dislikedProducts (run acts s)).
Proof.
  intros Hstep acts. induction acts as [|a acts IH]; intros s Hs; [done |].
  apply IH. by apply Hstep.
Qed.

Lemma visits_lists (P : list Z -> list Z -> Prop) :
  (forall a s,
      P (likedProducts s) (dislikedProducts s) ->
      P (likedProducts (step a s)) (dislikedProducts (step a s))) ->
  forall history st l d,
    restores st l d -> P l d ->
    exists st' l' d',
      visits history st = Some st' /\ restores st' l' d' /\ P l' d'.
Proof.
  intros Hstep history.
  induction history as [|acts later IH]; intros st l d Hst HP.
  - by exists st, l, d.
  - simpl. unfold visit. rewrite (mount_restores _ _ _ Hst).
    set (w := dispatchAll acts _).
    apply (IH (localStorage w) (likedProducts (app w))
              (dislikedProducts (app w))).
    + apply restores_synced. subst w. apply synced_dispatchAll.
      eapply mount_synced, mount_restores, Hst.
    + subst w. rewrite app_dispatchAll. by apply run_lists.
Qed.

(** ** What holds on every page *)

Lemma cardsShown_products (s : AppState) (p : Product.t) :
  pageInvariant s -> p ∈ cardsShown s -> p ∈ products s.
Proof.
  intros (_ & _ & _ & Hf). unfold cardsShown.
  destruct (String.eqb (currentView s) "products"); [by apply Hf |].
  destruct (String.eqb (currentView s) "favorites");
    [| by intros ?%elem_of_nil].
  by intros [? _]%favoriteProducts_elem.
Qed.

Lemma toggleOffered_catalog (s : AppState) (i : Z) :
  pageInvariant s -> toggleOffered s i = true ->
  i ∈ map Product.id (products s).
Proof.
  intros Hs. unfold toggleOffered.
  intros [Hc%bool_decide_eq_true | [Hv Hq]%andb_true_iff]%orb_true_iff.
  - change (map Product.id ?l) with (Product.id <$> l) in *.
    apply list_elem_of_fmap in Hc as (p & -> & Hp).
    apply list_elem_of_fmap_2. by eapply cardsShown_products.
  - apply String.eqb_eq in Hv.
    destruct Hs as (_ & Hd & _). destruct (Hd Hv) as (q & Hsel & Hq').
    rewrite Hsel in Hq. apply Z.eqb_eq in Hq as <-.
    change (map Product.id ?l) with (Product.id <$> l).
    by apply list_elem_of_fmap_2.
Qed.

Lemma pageInvariant_step (a : Action) (s : AppState) :
  pageInvariant s -> offers s a = true -> pageInvariant (step a s).
Proof.
  intros Hs Ho. pose proof Hs as (Hv & Hd & Hf & Hsub).
  unfold offers in Ho. destruct (App s); try discriminate.
  destruct a as [c|i|i|v [p|]]; simpl.
  - apply orb_true_iff in Ho. unfold pageInvariant, filterProducts.
    destruct (String.eqb c "all") eqn:E; simpl; split_and!; try done.
    + left. by apply String.eqb_eq.
    + destruct Ho as [Ho%bool_decide_eq_true | Ho]; [by right |].
      rewrite ?E in Ho. discriminate.
    + by intros p [_ ?]%list_elem_of_filter.
  - unfold pageInvariant, toggleLike.
    by destruct (includes i (likedProducts s)).
  - unfold pageInvariant, toggleDislike.
    by destruct (includes i (dislikedProducts s)).
  - apply andb_true_iff in Ho as [->%String.eqb_eq Hp%bool_decide_eq_true].
    unfold pageInvariant; simpl. split_and!; try done; [naive_solver |].
    intros _. exists p. split; [done |]. by eapply cardsShown_products.
  - unfold pageInvariant; simpl.
    rewrite !orb_true_iff, !String.eqb_eq in Ho.
    split_and!; try done; [naive_solver |].
    intros ->. by destruct Ho as [[? | ?] | ?].
Qed.

Lemma pageInvariant_afterLoad (r : Requests) (l d : list Z) :
  pageInvariant (afterLoad r l d).
Proof.
  unfold afterLoad.
  destruct (loaded_cases r (fetchDataStart (initialState l d)))
    as [(ps & cs & _ & _ & ->) | (m & ->)];
    unfold pageInvariant; simpl; split_and!; auto; try done;
    by intros ?%elem_of_nil.
Qed.

Lemma pageInvariant_browse (acts : list Action) (s s' : AppState) :
  pageInvariant s -> browse acts s = Some s' -> pageInvariant s'.
Proof.
  revert s. induction acts as [|a acts IH]; intros s Hs; simpl.
  - by intros [= <-].
  - destruct (offers s a) eqn:Ho; [| done].
    apply IH. by apply pageInvariant_step.
Qed.

(** ** The liked identifiers stay in the catalog *)

Lemma likedInCatalog_step (a : Action) (s : AppState) :
  pageInvariant s -> offers s a = true ->
  likedInCatalog s -> likedInCatalog (step a s).
Proof.
  intros Hs Ho (Hids & Hl & Hin). unfold likedInCatalog.
  destruct (step_load_cells a s) as (-> & _).
  split; [done |].
  unfold offers in Ho. destruct (App s); try discriminate.
  destruct a as [c|i|i|v p]; simpl.
  - by rewrite likedProducts_filterProducts.
  - rewrite likedProducts_toggleLike.
    destruct (includes i (likedProducts s)) eqn:E.
    + split; [by apply NoDup_filter |].
      intros k [_ ?]%list_elem_of_filter. by apply Hin.
    + split; [by apply NoDup_added |].
      intros k [? | ->%list_elem_of_singleton]%elem_of_app; [by apply Hin |].
      by apply toggleOffered_catalog.
  - rewrite likedProducts_toggleDislike.
    destruct (includes i (dislikedProducts s)); [done |].
    split; [by apply NoDup_filter |].
    intros k [_ ?]%list_elem_of_filter. by apply Hin.
  - done.
Qed.

Lemma likedInCatalog_browse (acts : list Action) (s s' : AppState) :
  pageInvariant s -> likedInCatalog s ->
  browse acts s = Some s' -> likedInCatalog s'.
Proof.
  revert s. induction acts as [|a acts IH]; intros s Hs Hl; simpl.
  - by intros [= <-].
  - destruct (offers s a) eqn:Ho; [| done].
    apply IH; [by apply pageInvariant_step | by apply likedInCatalog_step].
Qed.

End ViewFacts.

Import Views ViewFacts.

(** X1. [fetchData] is all or nothing.  It always ends with the loading
    flag down and it never touches the preferences, the filter, the view or
    the selection.  Either both requests answered with a success status and
    both bodies were read, and then the error cell is empty and the
    catalog, the categories and the filtered list are the ones received; or
    the error cell holds a message and the catalog, the categories and the
    filtered list are what they were, also when one of the two bodies had
    been read. *)
Theorem fetchData_all_or_nothing (r : Requests) (s : AppState) :
  let s' := loaded r s in
  loading s' = false
  /\ likedProducts s' = likedProducts s
  /\ dislikedProducts s' = dislikedProducts s
  /\ currentFilter s' = currentFilter s
  /\ currentView s' = currentView s
  /\ selectedProduct s' = selectedProduct s
  /\ ((exists ps cs,
          productsRequest r = Responded true (BodyJson ps)
          /\ categoriesRequest r = Responded true (BodyJson cs)
          /\ error s' = None
          /\ products s' = ps /\ categories s' = cs
          /\ filteredProducts s' = ps)
      \/ (exists message,
            error s' = Some message
            /\ products s' = products s
            /\ categories s' = categories s
            /\ filteredProducts s' = filteredProducts s)).
Proof.
  intros s'. subst s'.
  destruct (loaded_cases r s) as [(ps & cs & Hp & Hc & ->) | (m & ->)].
  - split_and!; try done. left. by exists ps, cs.
  - split_and!; try done. right. by exists m.
Qed.

(** X2. Which message a failed [fetchData] reports.  When both requests
    are answered and a status is not a success, the message is the fixed
    text, whatever the bodies are; a rejected request reports its own
    message, also when the other request was answered with a bad status,
    and of two rejections the first to settle is reported; with two
    success statuses, a body that cannot be read reports its message, the
    products body first. *)
Theorem fetchData_error_message (r : Requests) (s : AppState) :
  (forall ok b ok' b',
      productsRequest r = Responded ok b ->
      categoriesRequest r = Responded ok' b' ->
      ok && ok' = false ->
      error (loaded r s) = Some "Failed to fetch data")
  /\ (forall m ok' b',
        productsRequest r = Rejected m ->
        categoriesRequest r = Responded ok' b' ->
        error (loaded r s) = Some m)
  /\ (forall m' ok b,
        productsRequest r = Responded ok b ->
        categoriesRequest r = Rejected m' ->
        error (loaded r s) = Some m')
  /\ (forall m m',
        productsRequest r = Rejected m ->
        categoriesRequest r = Rejected m' ->
        error (loaded r s)
        = Some (if categoriesSettleFirst r then m' else m))
  /\ (forall m b',
        productsRequest r = Responded true (BodyRejected m) ->
        categoriesRequest r = Responded true b' ->
        error (loaded r s) = Some m)
  /\ (forall ps m',
        productsRequest r = Responded true (BodyJson ps) ->
        categoriesRequest r = Responded true (BodyRejected m') ->
        error (loaded r s) = Some m').
Proof.
  destruct r as [pr cr first]; simpl. split_and!.
  - intros ok b ok' b' -> -> Hok. by destruct ok, ok'.
  - by intros m ok' b' -> ->.
  - by intros m' ok b -> ->.
  - intros m m' -> ->. by destruct first.
  - by intros m b' -> ->.
  - by intros ps m' -> ->.
Qed.

Lemma fetchData_error_message_witness :
  error (loaded {| productsRequest := Rejected "offline";
                   categoriesRequest := Responded false (BodyJson []);
                   categoriesSettleFirst := true |} Sample.browsing)
  = Some "offline".
Proof.
  refine (proj1 (proj2 (fetchData_error_message _ Sample.browsing))
            "offline" false (BodyJson []) _ _); reflexivity.
Defined.

(** X3. No call of the context writes the loading flag, the error cell, the
    catalog or the categories; so the screen [App] chooses is the spinner
    after any calls exactly when it was before, and the error screen with
    a message exactly when it was before: nothing but a new construction of
    the provider leaves the error screen. *)
Theorem calls_keep_load_state (acts : list Action) (s : AppState) :
  loading (run acts s) = loading s
  /\ error (run acts s) = error s
  /\ products (run acts s) = products s
  /\ categories (run acts s) = categories s
  /\ (App (run acts s) = LoadingSpinner <-> App s = LoadingSpinner)
  /\ (forall message,
        App (run acts s) = ErrorState message
        <-> App s = ErrorState message).
Proof.
  destruct (run_load_cells acts s) as (Hp & Hc & Hl & He).
  split_and!; try done.
  - unfold App. rewrite Hl, He.
    destruct (loading s); [done |]. destruct (error s) as [m|]; [| done].
    by destruct (truthy m).
  - intros message. unfold App. rewrite Hl, He.
    destruct (loading s); [done |]. destruct (error s) as [m|]; [| done].
    by destruct (truthy m).
Qed.

(** X4. Once the fetch of a provider has settled, whatever is called
    afterwards, the filtered list is the catalog when the filter is
    ["all"] and the products of the catalog in the category of the filter
    otherwise. *)
Theorem filtered_list_follows_filter
    (r : Requests) (liked disliked : list Z) (acts : list Action) :
  let s := run acts (afterLoad r liked disliked) in
  filteredProducts s
  = if String.eqb (currentFilter s) "all" then products s
    else filter (fun p => Product.category p = currentFilter s) (products s).
Proof.
  intros s. subst s.
  apply (filterFollowed_run acts), filterFollowed_afterLoad.
Qed.

(** X5. A click on a category card.  The timer calls the [filterProducts]
    of the render of the click, and that is the same as calling the current
    one when it fires, whatever was called in between.  Afterwards the
    filter is the category of the card and, for a category other than
    ["all"], the products page shows as many products as the card counted;
    when nothing is called in between, the view is the products page and
    nothing is selected. *)
Theorem category_card_click
    (category : string) (between : list Action) (s : AppState) :
  let s' := categoryCardClick category between s in
  s' = filterProducts category (run between (navigateTo "products" None s))
  /\ currentFilter s' = category
  /\ (category <> "all" ->
      showing (ProductsView s') = getCategoryCount category s)
  /\ currentView (categoryCardClick category [] s) = "products"
  /\ selectedProduct (categoryCardClick category [] s) = None.
Proof.
  intros s'. subst s'. unfold categoryCardClick, categoryCardTimer.
  destruct (run_load_cells between (navigateTo "products" None s))
    as (Hp & _).
  simpl in Hp. split_and!.
  - unfold filterProducts. by rewrite Hp.
  - by destruct (String.eqb category "all").
  - intros Hne%String.eqb_neq. by rewrite Hne.
  - simpl. by destruct (String.eqb category "all").
  - simpl. by destruct (String.eqb category "all").
Qed.

Lemma category_card_click_witness :
  "b" <> "all"
  /\ showing (ProductsView
                (categoryCardClick "b" [ToggleLike 1] Sample.browsing))
     = getCategoryCount "b" Sample.browsing.
Proof.
  split; [discriminate |].
  refine (proj1 (proj2 (proj2
            (category_card_click "b" [ToggleLike 1] Sample.browsing))) _).
  discriminate.
Defined.

(** X6. When the list of categories has no repetition and holds the
    category of every product of the catalog, the counts on the category
    cards of the home page add up to the size of the catalog. *)
Theorem category_counts_add_up (s : AppState) :
  NoDup (categories s) ->
  (forall p, p ∈ products s -> Product.category p ∈ categories s) ->
  sum_list (map snd (HomeView s)) = length (products s).
Proof.
  intros Hcs Hin. unfold HomeView. rewrite List.map_map. simpl.
  by apply sum_counts.
Qed.

Lemma category_counts_add_up_witness :
  sum_list (map snd (HomeView Sample.browsing)) = 2%nat.
Proof.
  apply (category_counts_add_up Sample.browsing).
  - vm_compute. repeat constructor; set_solver.
  - intros p Hp. vm_compute in Hp. vm_compute.
    repeat (apply elem_of_cons in Hp as [-> | Hp]); set_solver.
Defined.

(** X7. The count on the favorites page against the count on the badge of
    the header.  When no identifier is twice in the catalog and none twice
    in the liked list, the favorites page lists at most as many products as
    the badge counts; it lists exactly as many when every liked identifier
    is in the catalog. *)
Theorem favorites_count_and_badge (s : AppState) :
  NoDup (map Product.id (products s)) ->
  NoDup (likedProducts s) ->
  (length (favoriteProducts s) <= length (likedProducts s))%nat
  /\ ((forall i, i ∈ likedProducts s -> i ∈ map Product.id (products s)) ->
      length (favoriteProducts s) = length (likedProducts s)).
Proof.
  intros Hids Hl. destruct (favoriteProducts_ids s Hids) as [Hf Hin].
  rewrite <- (length_map Product.id (favoriteProducts s)). split.
  - apply submseteq_length, NoDup_submseteq; [done |].
    intros i Hi. by apply Hin in Hi as [? _].
  - intros Hcat. apply Permutation_length, NoDup_Permutation; try done.
    intros i. rewrite Hin. naive_solver.
Qed.

Lemma favorites_count_and_badge_witness :
  (length (favoriteProducts (toggleLike 7 (toggleLike 1 Sample.browsing)))
   <= length (likedProducts (toggleLike 7 (toggleLike 1 Sample.browsing))))%nat.
Proof.
  refine (proj1 (favorites_count_and_badge
                   (toggleLike 7 (toggleLike 1 Sample.browsing)) _ _)).
  - vm_compute. repeat constructor; set_solver.
  - vm_compute. repeat constructor; set_solver.
Defined.

(** X8. What a toggle does to the favorites page.  After [toggleLike] on
    an identifier, the page lists the products it listed that have another
    identifier, and, when the identifier was not liked, the products of
    the catalog that have it.  After [toggleDislike] it lists the products
    it listed, less those with the identifier unless the identifier was
    already disliked.  The page always follows the order of the catalog. *)
Theorem favorites_after_toggle (s : AppState) (i : Z) (p : Product.t) :
  (p ∈ favoriteProducts (toggleLike i s)
   <-> (p ∈ favoriteProducts s /\ Product.id p <> i)
       \/ (p ∈ products s /\ Product.id p = i /\ isLiked s i = false))
  /\ (p ∈ favoriteProducts (toggleDislike i s)
      <-> p ∈ favoriteProducts s
          /\ (Product.id p <> i \/ isDisliked s i = true))
  /\ favoriteProducts (toggleLike i s) `sublist_of` products s
  /\ favoriteProducts (toggleDislike i s) `sublist_of` products s.
Proof.
  pose proof (step_load_cells (ToggleLike i) s) as (Hpl & _).
  pose proof (step_load_cells (ToggleDislike i) s) as (Hpd & _).
  simpl in Hpl, Hpd. split_and!.
  - rewrite !favoriteProducts_elem, Hpl.
    change (toggleLike i s) with (step (ToggleLike i) s).
    rewrite isLiked_step.
    destruct (decide (Product.id p = i)) as [<- | Hne];
      destruct (isLiked s (Product.id p)); naive_solver.
  - rewrite !favoriteProducts_elem, Hpd.
    change (toggleDislike i s) with (step (ToggleDislike i) s).
    rewrite isLiked_step.
    destruct (decide (Product.id p = i)) as [<- | Hne];
      destruct (isLiked s (Product.id p)), (isDisliked s (Product.id p));
      naive_solver.
  - unfold favoriteProducts at 1. rewrite Hpl. apply sublist_filter.
  - unfold favoriteProducts at 1. rewrite Hpd. apply sublist_filter.
Qed.

(** X9. The number on the badge after a toggle, for a liked list without a
    repeated identifier: [toggleLike] adds one when the identifier was not
    liked and takes one off when it was; [toggleDislike] takes one off when
    the identifier was liked and not disliked, and changes nothing
    otherwise. *)
Theorem liked_count_after_toggle (s : AppState) (i : Z) :
  NoDup (likedProducts s) ->
  length (likedProducts (toggleLike i s))
  = (if isLiked s i then length (likedProducts s) - 1
     else length (likedProducts s) + 1)%nat
  /\ length (likedProducts (toggleDislike i s))
     = (if negb (isDisliked s i) && isLiked s i
        then length (likedProducts s) - 1
        else length (likedProducts s))%nat.
Proof.
  intros Hl. unfold isLiked, isDisliked.
  rewrite likedProducts_toggleLike, likedProducts_toggleDislike. split.
  - destruct (includes i (likedProducts s)) eqn:E.
    + apply includes_true in E.
      pose proof (length_removed i _ Hl E). lia.
    + rewrite length_app. simpl. lia.
  - destruct (includes i (dislikedProducts s)); simpl; [done |].
    destruct (includes i (likedProducts s)) eqn:E.
    + apply includes_true in E.
      pose proof (length_removed i _ Hl E). lia.
    + apply includes_false in E. by rewrite filter_absent.
Qed.

Lemma liked_count_after_toggle_witness :
  length (likedProducts (toggleLike 2 (initialState [1; 2; 3] []))) = 2%nat.
Proof.
  refine (proj1 (liked_count_after_toggle (initialState [1; 2; 3] []) 2 _)).
  simpl. repeat constructor; set_solver.
Defined.

(** X10. Of two different toggles on the same identifier the last one
    decides: from any preference, [toggleLike] then [toggleDislike] ends
    DISLIKED and [toggleDislike] then [toggleLike] ends LIKED. *)
Theorem last_toggle_decides (s : AppState) (i : Z) (p : Preference) :
  preference s i = Some p ->
  preference (toggleDislike i (toggleLike i s)) i = Some DISLIKED
  /\ preference (toggleLike i (toggleDislike i s)) i = Some LIKED.
Proof.
  intros Hp. destruct (preference_flags s i p Hp) as [Hl Hd].
  unfold preference.
  repeat first [ rewrite isLiked_toggleDislike
               | rewrite isDisliked_toggleDislike
               | rewrite isLiked_toggleLike
               | rewrite isDisliked_toggleLike ].
  rewrite Hl, Hd. by destruct p.
Qed.

Lemma last_toggle_decides_witness :
  preference (toggleDislike 4 (toggleLike 4 (initialState [4] []))) 4
  = Some DISLIKED.
Proof.
  refine (proj1 (last_toggle_decides (initialState [4] []) 4 LIKED _)).
  reflexivity.
Defined.

(** X11. One toggle on an identifier is enough for it not to be in both
    lists, whatever the two lists held before, also lists that had it in
    both. *)
Theorem toggle_separates (s : AppState) (i : Z) :
  ~ (i ∈ likedProducts (toggleLike i s)
     /\ i ∈ dislikedProducts (toggleLike i s))
  /\ ~ (i ∈ likedProducts (toggleDislike i s)
        /\ i ∈ dislikedProducts (toggleDislike i s)).
Proof.
  split; intros [Hl%includes_true Hd%includes_true].
  - change (isLiked (toggleLike i s) i = true) in Hl.
    change (isDisliked (toggleLike i s) i = true) in Hd.
    rewrite isLiked_toggleLike in Hl. rewrite isDisliked_toggleLike in Hd.
    by destruct (isLiked s i).
  - change (isLiked (toggleDislike i s) i = true) in Hl.
    change (isDisliked (toggleDislike i s) i = true) in Hd.
    rewrite isLiked_toggleDislike in Hl.
    rewrite isDisliked_toggleDislike in Hd.
    by destruct (isDisliked s i).
Qed.

(** X12. Toggles on two different identifiers can be made in either order:
    every identifier ends in the same lists, so with the same preference
    (the order inside the lists may differ). *)
Theorem toggles_commute (s : AppState) (i j : Z) (a b : Action) :
  i <> j ->
  a = ToggleLike i \/ a = ToggleDislike i ->
  b = ToggleLike j \/ b = ToggleDislike j ->
  forall k,
    isLiked (step a (step b s)) k = isLiked (step b (step a s)) k
    /\ isDisliked (step a (step b s)) k = isDisliked (step b (step a s)) k
    /\ preference (step a (step b s)) k = preference (step b (step a s)) k.
Proof.
  intros Hne Ha Hb k.
  assert (isLiked (step a (step b s)) k = isLiked (step b (step a s)) k
          /\ isDisliked (step a (step b s)) k
             = isDisliked (step b (step a s)) k) as [Hl Hd].
  { destruct Ha as [-> | ->], Hb as [-> | ->];
      repeat (progress (rewrite ?isLiked_step, ?isDisliked_step);
              repeat case_decide; subst);
      done. }
  unfold preference. by rewrite Hl, Hd.
Qed.

Lemma toggles_commute_witness :
  preference (step (ToggleLike 1) (step (ToggleDislike 2)
                                     (initialState [2] []))) 2
  = preference (step (ToggleDislike 2) (step (ToggleLike 1)
                                          (initialState [2] []))) 2.
Proof.
  refine (proj2 (proj2 (toggles_commute (initialState [2] []) 1 2
                          (ToggleLike 1) (ToggleDislike 2) _ _ _ 2))).
  - discriminate.
  - by left.
  - by right.
Defined.

(** X13. A visit writes under the two keys of the preferences and under no
    other: any other key of the storage holds after the visit what it held
    before. *)
Theorem visit_keeps_other_keys
    (st : gmap string string) (acts : list Action) (w : World) (k : string) :
  visit acts st = Mounted w ->
  k <> "likedProducts" -> k <> "dislikedProducts" ->
  localStorage w !! k = st !! k.
Proof.
  unfold visit. destruct (mount st) as [| |w0] eqn:Hm; try done.
  intros [= <-] Hl Hd. rewrite dispatchAll_other_key by done.
  by eapply mount_other_key.
Qed.

Lemma visit_keeps_other_keys_witness :
  exists w,
    visit [ToggleLike 1] (<["theme" := "dark"]> ∅) = Mounted w
    /\ localStorage w !! "theme" = Some "dark".
Proof.
  set (st := <["theme" := "dark"]> (∅ : gmap string string)).
  set (s0 := fetchDataStart (initialState [] [])).
  set (w := dispatchAll [ToggleLike 1]
              {| app := s0;
                 localStorage := persistDisliked s0 (persistLiked s0 st) |}).
  assert (Hv : visit [ToggleLike 1] st = Mounted w) by reflexivity.
  exists w. split; [exact Hv |].
  rewrite (visit_keeps_other_keys st [ToggleLike 1] w "theme" Hv);
    [reflexivity | discriminate | discriminate].
Defined.

(** X14. When the construction of the provider throws: exactly when one of
    the two keys holds a text that is not empty and that [JSON.parse]
    rejects.  An absent key and an empty text never make it throw. *)
Theorem mount_throws_exactly (st : gmap string string) :
  mount st = MountThrows
  <-> exists key text,
      (key = "likedProducts" \/ key = "dislikedProducts")
      /\ st !! key = Some text /\ text <> "" /\ JSON.parse text = None.
Proof.
  unfold mount. split.
  - destruct (initialItems (st !! "likedProducts")) as [jl|] eqn:El.
    + destruct (initialItems (st !! "dislikedProducts")) as [jd|] eqn:Ed.
      * by destruct (JSON.asIds jl), (JSON.asIds jd).
      * intros _. apply initialItems_None in Ed as (text & ? & ? & ?).
        exists "dislikedProducts", text. auto.
    + intros _. apply initialItems_None in El as (text & ? & ? & ?).
      exists "likedProducts", text. auto.
  - intros (key & text & [-> | ->] & Hst & Hne & Hp).
    + assert (initialItems (st !! "likedProducts") = None) as ->; [| done].
      apply initialItems_None. by exists text.
    + assert (initialItems (st !! "dislikedProducts") = None) as ->.
      { apply initialItems_None. by exists text. }
      by destruct (initialItems (st !! "likedProducts")).
Qed.

(** X15. A reload keeps the two lists and nothing else.  The provider
    constructed on the storage a visit leaves does not change that storage,
    and it starts on the home view, with the filter ["all"], nothing
    selected, no catalog, the loading flag up and no error, whatever the
    visit did. *)
Theorem reload_keeps_lists_only
    (st : gmap string string) (acts : list Action) (w : World) :
  visit acts st = Mounted w ->
  exists w',
    mount (localStorage w) = Mounted w'
    /\ localStorage w' = localStorage w
    /\ likedProducts (app w') = likedProducts (app w)
    /\ dislikedProducts (app w') = dislikedProducts (app w)
    /\ currentView (app w') = "home"
    /\ currentFilter (app w') = "all"
    /\ selectedProduct (app w') = None
    /\ products (app w') = [] /\ categories (app w') = []
    /\ filteredProducts (app w') = []
    /\ loading (app w') = true /\ error (app w') = None.
Proof.
  intros Hv. eexists. split.
  - apply mount_storage_synced. by eapply visit_synced.
  - by split_and!.
Qed.

Lemma reload_keeps_lists_only_witness :
  exists w w',
    visit [NavigateTo "favorites" None; ToggleLike 3; FilterProducts "a"] ∅
    = Mounted w
    /\ mount (localStorage w) = Mounted w'
    /\ currentView (app w) = "favorites"
    /\ currentView (app w') = "home"
    /\ likedProducts (app w') = [3].
Proof.
  set (acts := [NavigateTo "favorites" None; ToggleLike 3;
                FilterProducts "a"]).
  set (s0 := fetchDataStart (initialState [] [])).
  set (w := dispatchAll acts
              {| app := s0;
                 localStorage := persistDisliked s0 (persistLiked s0 ∅) |}).
  assert (Hv : visit acts ∅ = Mounted w) by reflexivity.
  destruct (reload_keeps_lists_only ∅ acts w Hv)
    as (w' & Hm & _ & Hl & _ & Hview & _).
  exists w, w'. split_and!; [exact Hv | exact Hm | reflexivity | exact Hview |].
  rewrite Hl. reflexivity.
Defined.

(** X16. Visit after visit, starting from an empty storage, no identifier
    is ever twice in the liked list or twice in the disliked list: the
    lists a provider restores are as free of repetitions as the lists the
    previous one persisted. *)
Theorem visits_keep_lists_without_repetition
    (history : list (list Action)) (acts : list Action) :
  exists st w,
    visits history ∅ = Some st /\ visit acts st = Mounted w
    /\ NoDup (likedProducts (app w)) /\ NoDup (dislikedProducts (app w)).
Proof.
  destruct (visits_lists (fun l d => NoDup l /\ NoDup d)
              (fun a s H => NoDup_step a s (proj1 H) (proj2 H))
              history ∅ [] [] restores_empty)
    as (st & l & d & Hv & Hst & Hl & Hd).
  { split; constructor. }
  exists st. eexists. split; [done |]. unfold visit.
  rewrite (mount_restores _ _ _ Hst). split; [reflexivity |].
  rewrite app_dispatchAll. by apply NoDup_run.
Qed.

(** X17. On every page the components can lead to, once the fetch has
    settled: the view is one of the four [App] knows, so that exactly one
    page is under the header; the detail page always has a product to
    show, one of the catalog; and the filter is ["all"] or one of the
    categories received. *)
Theorem pages_are_never_blank
    (r : Requests) (liked disliked : list Z) (acts : list Action)
    (s : AppState) :
  browse acts (afterLoad r liked disliked) = Some s ->
  length (mainContent s) = 1%nat
  /\ (DetailPage None ∉ mainContent s)
  /\ (currentView s = "detail" ->
      exists q, q ∈ products s
                /\ mainContent s = [DetailPage (Some (ProductCard s q))])
  /\ (currentFilter s = "all" \/ currentFilter s ∈ categories s).
Proof.
  intros Hb.
  pose proof (pageInvariant_browse acts _ s
                (pageInvariant_afterLoad r liked disliked) Hb)
    as (Hv & Hd & Hf & _).
  split_and!; try done.
  - unfold mainContent. by destruct Hv as [-> | [-> | [-> | ->]]].
  - unfold mainContent, ProductDetailView.
    destruct Hv as [Hv | [Hv | [Hv | Hv]]]; rewrite Hv; simpl;
      try (intros [[=] | ?%elem_of_nil]%elem_of_cons; done).
    destruct (Hd Hv) as (q & -> & _).
    by intros [[=] | ?%elem_of_nil]%elem_of_cons.
  - intros Hdetail. destruct (Hd Hdetail) as (q & Hsel & Hq).
    exists q. split; [done |].
    unfold mainContent, ProductDetailView. by rewrite Hdetail, Hsel.
Qed.

Lemma pages_are_never_blank_witness :
  length (mainContent
            (run [NavigateTo "products" None;
                  NavigateTo "detail" (Some (Sample.product 2 "b"));
                  ToggleLike 2]
               (afterLoad Sample.served [] []))) = 1%nat.
Proof.
  refine (proj1 (pages_are_never_blank Sample.served [] []
                   [NavigateTo "products" None;
                    NavigateTo "detail" (Some (Sample.product 2 "b"));
                    ToggleLike 2] _ _)).
  vm_compute. reflexivity.
Defined.

(** X18. When no identifier is twice in the catalog received and the liked
    list restored has no repetition and only identifiers of that catalog,
    then on every page the components can lead to the badge of the header
    and the favorites page agree: no badge and the empty favorites page, or
    a badge with the number of products the favorites page lists. *)
Theorem badge_agrees_with_favorites
    (r : Requests) (liked disliked : list Z) (acts : list Action)
    (s : AppState) :
  likedInCatalog (afterLoad r liked disliked) ->
  browse acts (afterLoad r liked disliked) = Some s ->
  length (favoriteProducts s) = length (likedProducts s)
  /\ FavoritesView s
     = match favoritesBadge s with
       | None => NoFavoritesYet
       | Some n => Favorites n (map (ProductCard s) (favoriteProducts s))
       end.
Proof.
  intros Hl Hb.
  pose proof (likedInCatalog_browse acts _ s
                (pageInvariant_afterLoad r liked disliked) Hl Hb)
    as (Hids & Hnd & Hin).
  assert (Hlen : length (favoriteProducts s) = length (likedProducts s)).
  { rewrite <- (length_map Product.id (favoriteProducts s)).
    destruct (favoriteProducts_ids s Hids) as [Hf Hfin].
    apply Permutation_length, NoDup_Permutation; try done.
    intros i. rewrite Hfin. naive_solver. }
  split; [done |].
  unfold FavoritesView, favoritesBadge. rewrite Hlen.
  by destruct (length (likedProducts s)).
Qed.

Lemma badge_agrees_with_favorites_witness :
  length (favoriteProducts
            (run [NavigateTo "products" None; ToggleLike 2; ToggleLike 1]
               (afterLoad Sample.served [] [])))
  = 2%nat.
Proof.
  refine (eq_trans (proj1 (badge_agrees_with_favorites Sample.served [] []
                     [NavigateTo "products" None; ToggleLike 2; ToggleLike 1]
                     _ _ _)) _).
  - vm_compute. split_and!.
    + repeat constructor; set_solver.
    + constructor.
    + by intros i ?%elem_of_nil.
  - vm_compute. reflexivity.
  - vm_compute. reflexivity.
Defined.
